(** * Gmail auto-labelling service: the unread-email triage pipeline

    A shallow embedding of [src/gmail/autolabel.py] (class [GmailService]
    and the helper [decode_mime_header]) together with the properties of
    the triage pipeline: fetch, decode, classify, label.

    Python text ([str]) is a list of Unicode code points, [bytes] a list
    of bytes.  Everything the program obtains from a collaborator it does
    not implement itself (the Gmail client, the Ollama endpoint, the
    [email], [base64] and [codecs] modules of the Python library) is a
    field of the environment record [Env]; the mailbox the Gmail client
    mutates is explicit state. *)

From Stdlib Require Import ZArith NArith.
From Stdlib.Strings Require Import Ascii String Byte.
From Stdlib Require Import Numbers.DecimalString.
From stdpp Require Import base option list gmap.

Set Warnings "-register-all".

Local Open Scope Z_scope.

(** ** Python text and bytes *)

Module Py.

(** A [str] is a sequence of code points. *)
Abbreviation codepoint := N (only parsing).
Abbreviation str := (list N) (only parsing).
Abbreviation bytes := (list byte) (only parsing).

#[global] Instance byte_eq_decision : EqDecision byte := Byte.byte_eq_dec.

(** A literal of the source, written as an ASCII string. *)
Definition lit (s : string) : str :=
  (fun a => N_of_ascii a) <$> list_ascii_of_string s.

(** [str.isspace] on one code point: the characters CPython's
    [_PyUnicode_IsWhitespace] accepts. *)
Definition isspace (c : codepoint) : bool :=
  ((9 <=? c) && (c <=? 13) || (28 <=? c) && (c <=? 32) ||
   (c =? 133) || (c =? 160) || (c =? 5760) ||
   (8192 <=? c) && (c <=? 8202) ||
   (c =? 8232) || (c =? 8233) || (c =? 8239) || (c =? 8287) ||
   (c =? 12288))%N.

(** [s.split()] with no separator: maximal runs of non-whitespace.
    [cur] holds the characters of the token being read, last one first. *)
Fixpoint split_from (cur : str) (s : str) : list str :=
  match s with
  | [] => match cur with [] => [] | _ => [rev cur] end
  | c :: s' =>
      if isspace c then
        match cur with
        | [] => split_from [] s'
        | _ => rev cur :: split_from [] s'
        end
      else split_from (c :: cur) s'
  end.

Definition split (s : str) : list str := split_from [] s.

(** [sep.join(words)]. *)
Fixpoint join (sep : str) (words : list str) : str :=
  match words with
  | [] => []
  | [w] => w
  | w :: ws => w ++ sep ++ join sep ws
  end.

(** Truthiness of a [str]: the empty string is false. *)
Definition str_truthy (s : str) : bool :=
  match s with [] => false | _ => true end.

(** [str(n)] for a non-negative integer. *)
Definition str_of_N (n : N) : str :=
  lit (NilEmpty.string_of_uint (N.to_uint n)).

(** *** Codecs *)

Definition cont (b : N) : bool := ((128 <=? b) && (b <=? 191))%N.

Definition between (lo hi b : N) : bool := ((lo <=? b) && (b <=? hi))%N.

(** [b.decode('utf-8')], strict: [None] stands for [UnicodeDecodeError].
    Well-formed sequences are those of the Unicode standard (no overlong
    forms, no surrogates, nothing above U+10FFFF). *)
Fixpoint utf8_decode (b : bytes) : option str :=
  match b with
  | [] => Some []
  | x0 :: r0 =>
      let b0 := Byte.to_N x0 in
      if (b0 <? 128)%N then cons b0 <$> utf8_decode r0
      else if between 194 223 b0 then
        match r0 with
        | x1 :: r1 =>
            let b1 := Byte.to_N x1 in
            if cont b1
            then cons ((b0 - 192) * 64 + (b1 - 128))%N <$> utf8_decode r1
            else None
        | _ => None
        end
      else if between 224 239 b0 then
        match r0 with
        | x1 :: x2 :: r2 =>
            let b1 := Byte.to_N x1 in
            let b2 := Byte.to_N x2 in
            if (if (b0 =? 224)%N then between 160 191 b1
                else if (b0 =? 237)%N then between 128 159 b1
                else cont b1) && cont b2
            then cons ((b0 - 224) * 4096 + (b1 - 128) * 64 + (b2 - 128))%N
                   <$> utf8_decode r2
            else None
        | _ => None
        end
      else if between 240 244 b0 then
        match r0 with
        | x1 :: x2 :: x3 :: r3 =>
            let b1 := Byte.to_N x1 in
            let b2 := Byte.to_N x2 in
            let b3 := Byte.to_N x3 in
            if (if (b0 =? 240)%N then between 144 191 b1
                else if (b0 =? 244)%N then between 128 143 b1
                else cont b1) && cont b2 && cont b3
            then cons ((b0 - 240) * 262144 + (b1 - 128) * 4096
                       + (b2 - 128) * 64 + (b3 - 128))%N
                   <$> utf8_decode r3
            else None
        | _ => None
        end
      else None
  end.

(** [b.decode('latin-1', errors='replace')]: every byte is a code point,
    so the codec has nothing to replace and never raises. *)
Definition latin1_decode (b : bytes) : str := Byte.to_N <$> b.

End Py.

Import Py.

(** ** [count_words] and the word cap of [read_email] *)

Definition count_words (text : str) : Z :=
  if negb (str_truthy text) then 0
  else Z.of_nat (length (split text)).

(** Lines 296-299 of [read_email]. *)
Definition cap_words (body : str) : str :=
  if count_words body >? 10000 then
    let words := split body in
    join (lit " ") (take (Z.to_nat 10000) words)
  else body.

(** Lines 292-299 of [read_email]: the sentinel for a missing or empty
    body, then the word cap. [None] is Python's [None]. *)
Definition normalize_body (body : option str) : str :=
  let body :=
    match body with
    | Some s => if str_truthy s then s else lit "THIS IS SPAM"
    | None => lit "THIS IS SPAM"
    end in
  cap_words body.

(** ** Exceptions, results and Python values *)

(** The exceptions the pipeline can meet; all are subclasses of
    [Exception].  [HttpError] is googleapiclient's and carries
    [str(error)]. *)
Inductive exn :=
| HttpError (text : str)
| UnicodeDecodeError
| LookupError
| AttributeError
| UnboundLocalError
| OtherException (text : str).

Inductive result (A : Type) :=
| Ok (a : A)
| Raise (e : exn).

Arguments Ok {A} a.
Arguments Raise {A} e.

(** A value decoded from JSON: [JNull] is [None], [JBool] is [True] or
    [False], [JNum] is an [int], [JObj] is a [dict] (the first binding
    of a key is the one the dict holds). *)
Inductive json :=
| JNull
| JBool (b : bool)
| JNum (n : Z)
| JStr (s : str)
| JArr (items : list json)
| JObj (fields : list (str * json)).

Fixpoint assoc {A} (key : str) (fields : list (str * A)) : option A :=
  match fields with
  | [] => None
  | (k, v) :: rest => if bool_decide (k = key) then Some v else assoc key rest
  end.

(** [bool(v)]. *)
Definition truthy (v : json) : bool :=
  match v with
  | JNull => false
  | JBool b => b
  | JNum n => negb (n =? 0)
  | JStr s => str_truthy s
  | JArr items => match items with [] => false | _ => true end
  | JObj fields => match fields with [] => false | _ => true end
  end.

(** [v.get(key, default)]: only a dict has the method. *)
Definition py_get (v : json) (key : str) (default : json) : result json :=
  match v with
  | JObj fields =>
      Ok match assoc key fields with Some x => x | None => default end
  | _ => Raise AttributeError
  end.

(** ** Messages *)

(** The message [email.message_from_bytes] builds.  Header names are
    kept in lower case ([Message.get] ignores case); [leaf_payload] is
    what [get_payload(decode=True)] returns for a message that is not
    multipart. *)
Inductive mime_message :=
| MimeLeaf (headers : list (str * str)) (content_type : str)
    (leaf_payload : bytes)
| MimeMultipart (headers : list (str * str)) (content_type : str)
    (parts : list mime_message).

Definition is_multipart (m : mime_message) : bool :=
  match m with MimeLeaf _ _ _ => false | MimeMultipart _ _ _ => true end.

Definition get_content_type (m : mime_message) : str :=
  match m with MimeLeaf _ t _ | MimeMultipart _ t _ => t end.

Definition headers_of (m : mime_message) : list (str * str) :=
  match m with MimeLeaf h _ _ | MimeMultipart h _ _ => h end.

(** [m.get(name, default)]. *)
Definition mime_get (m : mime_message) (name default : str) : str :=
  match assoc name (headers_of m) with Some v => v | None => default end.

(** [m.get_payload(decode=True)]: [None] for a multipart message. *)
Definition get_payload_decoded (m : mime_message) : option bytes :=
  match m with
  | MimeLeaf _ _ payload => Some payload
  | MimeMultipart _ _ _ => None
  end.

(** [m.walk()]: the message itself, then its parts, depth first. *)
Fixpoint walk (m : mime_message) : list mime_message :=
  match m with
  | MimeLeaf _ _ _ => [m]
  | MimeMultipart _ _ parts => m :: concat (map walk parts)
  end.

(** The dict [read_email] returns. *)
Record email_metadata := {
  md_content : str;
  md_subject : str;
  md_from : str;
  md_to : str;
  md_date : str;
}.

(** One piece of a header as [email.header.decode_header] returns it. *)
Inductive chunk :=
| ChunkBytes (b : bytes)
| ChunkStr (s : str).

(** ** The mailbox and the collaborators *)

(** A request to a collaborator: the four Gmail calls of the pipeline
    and the POST to the Ollama endpoint. *)
Inductive request :=
| ReqList
| ReqGet (id : str)
| ReqLabels
| ReqModify (id : str) (addLabelIds removeLabelIds : list str)
| ReqPost (url : str) (email_content : email_metadata).

Record stored_message := {
  msg_raw : str;
  msg_threadId : str;
  msg_labelIds : list str;
}.

(** The remote mailbox, and the requests made so far (oldest first). *)
Record State := {
  mailbox : gmap (list N) stored_message;
  trace : list request;
}.

(** An entry of the list response: [email.get("id")]. *)
Record message_ref := { ref_id : option str }.

Record label_entry := { lbl_id : str; lbl_name : str }.

Inductive json_body :=
| BodyJson (j : json)
| BodyRaises (text : str).

(** What the POST comes to: an exception [e] (with [str(e)]), or a
    response with its status and what [response.json()] gives. *)
Inductive post_outcome :=
| PostRaised (text : str)
| PostResponse (status : N) (body : json_body).

(** The collaborators.  The Gmail client and the endpoint may answer
    differently as the run goes on, so their fields see the requests
    made before the current one. *)
Record Env := {
  (* Gmail client: the exception [execute()] raises, if any *)
  api_fault : list request -> request -> option exn;
  (* ['messages'] of the list response, when the key is there *)
  api_unread : list request -> option (list message_ref);
  (* ['labels'] of the labels response, when the key is there *)
  api_labels : list request -> option (list label_entry);
  (* [str(error)] of the HttpError the client raises when the method
     named is asked about a message id the account does not hold *)
  api_missing : str -> str -> str;
  (* aiohttp: the POST to the endpoint *)
  http_post : list request -> str -> email_metadata -> post_outcome;
  (* base64, email, email.header, codecs, json, str() *)
  urlsafe_b64decode : str -> result bytes;
  message_from_bytes : bytes -> mime_message;
  decode_header : str -> result (list (chunk * option str));
  codecs_lookup : str -> option (bytes -> option str);
  json_dumps : json -> str;
  py_str : json -> str;
}.

(** Code with effects: the state is threaded through, and is kept when
    an exception is raised. *)
Definition M (A : Type) : Type := State -> State * result A.

Definition ret {A} (a : A) : M A := fun st => (st, Ok a).

Definition raise {A} (e : exn) : M A := fun st => (st, Raise e).

Definition bind {A B} (m : M A) (k : A -> M B) : M B :=
  fun st =>
    match m st with
    | (st', Ok a) => k a st'
    | (st', Raise e) => (st', Raise e)
    end.

Definition lift {A} (r : result A) : M A := fun st => (st, r).

Notation "x <- m ;; k" := (bind m (fun x => k))
  (at level 100, m at next level, right associativity).

(** [try: m except HttpError as error: h (str(error))]. *)
Definition try_except_HttpError {A} (m : M A) (h : str -> M A) : M A :=
  fun st =>
    match m st with
    | (st', Raise (HttpError text)) => h text st'
    | r => r
    end.

(** [try: m except Exception as e: h e]. *)
Definition try_except_Exception {A} (m : M A) (h : exn -> M A) : M A :=
  fun st =>
    match m st with
    | (st', Raise e) => h e st'
    | r => r
    end.

(** [....execute()]: the request is recorded, then the client raises or
    answers. *)
Definition execute (env : Env) (rq : request) : M unit :=
  fun st =>
    let st' := {| mailbox := mailbox st; trace := trace st ++ [rq] |} in
    match api_fault env (trace st) rq with
    | Some e => (st', Raise e)
    | None => (st', Ok tt)
    end.

(** [users().messages().list(userId, q, maxResults=20).execute()]. *)
Definition messages_list (env : Env) : M (option (list message_ref)) :=
  fun st =>
    match execute env ReqList st with
    | (st', Ok _) => (st', Ok (api_unread env (trace st)))
    | (st', Raise e) => (st', Raise e)
    end.

(** [users().labels().list(userId).execute()]. *)
Definition labels_list (env : Env) : M (option (list label_entry)) :=
  fun st =>
    match execute env ReqLabels st with
    | (st', Ok _) => (st', Ok (api_labels env (trace st)))
    | (st', Raise e) => (st', Raise e)
    end.

(** The provider's answer for a message it does not hold: an HttpError,
    with the text the client gives it. *)
Definition not_found (env : Env) (method id : str) : exn :=
  HttpError (api_missing env method id).

(** [self.service.messages()] (line 264).  [self.service] is what
    [build('gmail', 'v1', ...)] returned (line 161).  The collections of
    that service are reached through [users()], as lines 169, 187, 211,
    236, 246, 321 and 330 do; it has no attribute [messages], and the
    lookup raises [AttributeError] before any request is built. *)
Definition service_messages : M unit := raise AttributeError.

(** [self.service.messages().get(userId="me", id, format='raw')
    .execute()['raw']] (lines 264 and 268): the lookup of [messages]
    comes first, so the request that follows it is never made. *)
Definition messages_get (env : Env) (id : str) : M str :=
  _ <- service_messages ;;
  _ <- execute env (ReqGet id) ;;
  fun st =>
    match mailbox st !! id with
    | Some m => (st, Ok (msg_raw m))
    | None => (st, Raise (not_found env (lit "get") id))
    end.

(** The labels of a message after a modify request: the removed ones
    go, the added ones it does not have yet are appended. *)
Definition modified_labels (labels add remove : list str) : list str :=
  let kept := filter (fun l => l ∉ remove) labels in
  kept ++ filter (fun l => l ∉ kept) add.

Definition message_resource (id : str) (m : stored_message) : json :=
  JObj [(lit "id", JStr id);
        (lit "threadId", JStr (msg_threadId m));
        (lit "labelIds", JArr (JStr <$> msg_labelIds m))].

(** [users().messages().modify(userId, id, body).execute()]: only the
    labels of the message change; the answer is the message resource. *)
Definition messages_modify (env : Env) (id : str) (add remove : list str)
  : M json :=
  _ <- execute env (ReqModify id add remove) ;;
  fun st =>
    match mailbox st !! id with
    | Some m =>
        let m' := {| msg_raw := msg_raw m;
                     msg_threadId := msg_threadId m;
                     msg_labelIds :=
                       modified_labels (msg_labelIds m) add remove |} in
        ({| mailbox := <[id := m']> (mailbox st); trace := trace st |},
         Ok (message_resource id m'))
    | None => (st, Raise (not_found env (lit "modify") id))
    end.

(** ** [decode_mime_header] *)

(** [part.decode(encoding)]: utf-8 is the codec above, every other
    charset name goes through the codec registry. *)
Definition bytes_decode (env : Env) (encoding : str) (b : bytes)
  : result str :=
  if bool_decide (encoding = lit "utf-8") then
    match utf8_decode b with
    | Some s => Ok s
    | None => Raise UnicodeDecodeError
    end
  else
    match codecs_lookup env encoding with
    | None => Raise LookupError
    | Some codec =>
        match codec b with
        | Some s => Ok s
        | None => Raise UnicodeDecodeError
        end
    end.

(** [encoding or 'utf-8']. *)
Definition encoding_or_utf8 (encoding : option str) : str :=
  match encoding with
  | Some e => if str_truthy e then e else lit "utf-8"
  | None => lit "utf-8"
  end.

(** The loop of [decode_mime_header] over the decoded parts. *)
Fixpoint decode_parts (env : Env) (decoded_parts : list (chunk * option str))
    (decoded_string : str) : result str :=
  match decoded_parts with
  | [] => Ok decoded_string
  | (ChunkBytes part, encoding) :: rest =>
      match bytes_decode env (encoding_or_utf8 encoding) part with
      | Ok s => decode_parts env rest (decoded_string ++ s)
      | Raise e => Raise e
      end
  | (ChunkStr part, _) :: rest =>
      decode_parts env rest (decoded_string ++ part)
  end.

Definition decode_mime_header (env : Env) (header : str) : result str :=
  match decode_header env header with
  | Ok decoded_parts => decode_parts env decoded_parts []
  | Raise e => Raise e
  end.

(** ** [GmailService] *)

(** What [get_unread_emails] returns: the list, or the text of the
    error. *)
Inductive unread_reply :=
| UnreadList (messages : list message_ref)
| UnreadError (text : str).

Definition get_unread_emails (env : Env) : M unread_reply :=
  try_except_HttpError
    (response <- messages_list env ;;
     let messages :=
       [] ++ match response with Some l => l | None => [] end in
     ret (UnreadList messages))
    (fun error => ret (UnreadError (lit "An HttpError occurred: " ++ error))).

(** [labeli.get('name') == label]. *)
Definition name_is (label : json) (labeli : label_entry) : bool :=
  match label with
  | JStr s => bool_decide (lbl_name labeli = s)
  | _ => false
  end.

(** [next((labeli['id'] for labeli in labels if ...), None)]. *)
Definition find_label_id (labels : list label_entry) (label : json)
  : option str :=
  lbl_id <$> find (name_is label) labels.

(** [f"{label}"]. *)
Definition format_label (env : Env) (label : json) : str :=
  match label with
  | JStr s => s
  | v => py_str env v
  end.

(** The value [label_email] returns for a name no label has. *)
Definition label_not_found (env : Env) (label : json) : str :=
  json_dumps env
    (JObj [(lit "error", JStr (lit "true"));
           (lit "message",
            JStr (lit "Label '" ++ format_label env label
                  ++ lit "' not found."))]).

Definition label_email (env : Env) (email_id : str) (label : json) : M str :=
  try_except_HttpError
    (labelList <- labels_list env ;;
     match labelList with
     | None => ret (lit "No labels found in the account.")
     | Some labels =>
         match find_label_id labels label with
         | Some labelID =>
             if str_truthy labelID then
               message <- messages_modify env email_id [labelID] [] ;;
               ret (json_dumps env message)
             else ret (label_not_found env label)
         | None => ret (label_not_found env label)
         end
     end)
    (fun error => ret (lit "An ttpError occurred: " ++ error)).

Definition mark_email_as_read (env : Env) (email_id : str) : M str :=
  try_except_HttpError
    (_ <- messages_modify env email_id [] [lit "UNREAD"] ;;
     ret (lit "Email marked as read."))
    (fun error => ret (lit "An HttpError occurred: " ++ error)).

(** The body extraction of [read_email] (lines 276-290).  The loop over
    [walk()] ends its first iteration with [break], so only the first
    part walked is looked at; the payload decoded is the one of
    [mime_message], and [None.decode] raises [AttributeError]. *)
Definition extract_body (mime_message : mime_message)
  : result (option str) :=
  if is_multipart mime_message then
    match walk mime_message with
    | [] => Ok None
    | part :: _ =>
        if bool_decide (get_content_type part = lit "text/plain") then
          match get_payload_decoded mime_message with
          | None => Raise AttributeError
          | Some payload =>
              match utf8_decode payload with
              | Some body => Ok (Some body)
              | None => Ok (Some (latin1_decode payload))
              end
          end
        else Ok None
    end
  else
    match get_payload_decoded mime_message with
    | None => Raise AttributeError
    | Some payload =>
        match utf8_decode payload with
        | Some body => Ok (Some body)
        | None => Raise UnicodeDecodeError
        end
    end.

(** What [read_email] returns: the dict, or the text of the error. *)
Inductive read_reply :=
| Metadata (email_metadata : email_metadata)
| ReadError (text : str).

(** Lines 269-307 of [read_email]: the raw data of a message turned into
    the dict.  No request is made here, and the state is not read. *)
Definition decode_raw (env : Env) (raw_data : str) : result email_metadata :=
  match urlsafe_b64decode env raw_data with
  | Raise e => Raise e
  | Ok decoded_data =>
      let mime_message := message_from_bytes env decoded_data in
      match extract_body mime_message with
      | Raise e => Raise e
      | Ok body =>
          let body := normalize_body body in
          match decode_mime_header env
                  (mime_get mime_message (lit "subject") []) with
          | Raise e => Raise e
          | Ok subject =>
              Ok {| md_content := body;
                    md_subject := subject;
                    md_from := mime_get mime_message (lit "from") [];
                    md_to := mime_get mime_message (lit "to") [];
                    md_date := mime_get mime_message (lit "date") [] |}
          end
      end
  end.

(** Lines 264-307 of [read_email]: the message is asked for, and its raw
    data turned into the dict.  The first step is the lookup of line 264,
    which raises: the steps after it are those the source has, and none
    of them is reached. *)
Definition fetch_and_decode (env : Env) (email_id : str)
  : M email_metadata :=
  raw_data <- messages_get env email_id ;;
  lift (decode_raw env raw_data).

Definition read_email (env : Env) (email_id : str) : M read_reply :=
  try_except_HttpError
    (email_metadata <- fetch_and_decode env email_id ;;
     _ <- mark_email_as_read env email_id ;;
     ret (Metadata email_metadata))
    (fun error => ret (ReadError (lit "An HttpError occurred: " ++ error))).

(** The dict [send_to_ollama] returns when the call fails. *)
Definition ollama_error (text : str) : json :=
  JObj [(lit "is_important", JBool false); (lit "error", JStr text)].

Definition send_to_ollama (env : Env) (api_url : str)
    (email_content : email_metadata) : M json :=
  fun st =>
    let st' := {| mailbox := mailbox st;
                  trace := trace st ++ [ReqPost api_url email_content] |} in
    (st',
     Ok match http_post env (trace st) api_url email_content with
        | PostRaised text => ollama_error text
        | PostResponse status body =>
            if (status =? 200)%N then
              match body with
              | BodyJson j => j
              | BodyRaises text => ollama_error text
              end
            else ollama_error (lit "Status " ++ str_of_N status)
        end).

(** ** [process_and_label_emails] *)

Record TriageOutcome := {
  email_id : str;
  label : json;
  label_response : str;
  ollama_response : json;
}.

Definition ollama_api_url : str := lit "http://localhost:11434/api/generate".

(** The variables the loop carries from one message to the next: the
    list [results], and the local [label_response], which is not bound
    ([None]) until a first label has been applied. *)
Record loop_vars := {
  results : list TriageOutcome;
  bound_label_response : option str;
}.

(** One turn of the loop (lines 358-393).  [read_email] returns a dict,
    which is never empty, or a text; the tests of lines 365-370 send a
    text to [continue]. *)
Definition process_email (env : Env) (email : message_ref) (v : loop_vars)
  : M loop_vars :=
  match ref_id email with
  | None => ret v
  | Some email_id =>
      if negb (str_truthy email_id) then ret v
      else
        email_content <- read_email env email_id ;;
        match email_content with
        | ReadError _ => ret v
        | Metadata email_content =>
            response <- send_to_ollama env ollama_api_url email_content ;;
            message <- lift (py_get response (lit "message") (JBool false)) ;;
            label <- lift (py_get message (lit "content") (JBool false)) ;;
            bound <-
              (if truthy label then
                 label_response <- label_email env email_id label ;;
                 ret (Some label_response)
               else ret (bound_label_response v)) ;;
            match bound with
            | None => raise UnboundLocalError
            | Some label_response =>
                ret {| results :=
                         results v ++
                           [{| email_id := email_id;
                               label := label;
                               label_response := label_response;
                               ollama_response := response |}];
                       bound_label_response := bound |}
            end
        end
  end.

Fixpoint process_loop (env : Env) (unread_emails : list message_ref)
    (v : loop_vars) : M (list TriageOutcome) :=
  match unread_emails with
  | [] => ret (results v)
  | email :: rest =>
      v' <- process_email env email v ;;
      process_loop env rest v'
  end.

(** The body of the [try] (lines 349-395).  When [get_unread_emails]
    returned the text of an error, the loop runs over its characters and
    the first [email.get] raises. *)
Definition process_body (env : Env) : M (list TriageOutcome) :=
  unread_emails <- get_unread_emails env ;;
  match unread_emails with
  | UnreadList [] => ret []
  | UnreadList unread_emails =>
      process_loop env unread_emails
        {| results := []; bound_label_response := None |}
  | UnreadError [] => ret []
  | UnreadError (_ :: _) => raise AttributeError
  end.

Definition process_and_label_emails (env : Env) : M (list TriageOutcome) :=
  try_except_Exception (process_body env) (fun _ => ret []).

(** ** Vocabulary of the statements *)

(** A token: non-empty and free of whitespace. *)
Definition is_word (w : str) : Prop :=
  w <> [] /\ Forall (fun c => isspace c = false) w.

(** The loop variables before the first message. *)
Definition initial_vars : loop_vars :=
  {| results := []; bound_label_response := None |}.

(** One part of a header, decoded. *)
Definition decode_part (env : Env) (p : chunk * option str) : result str :=
  match p with
  | (ChunkBytes b, encoding) => bytes_decode env (encoding_or_utf8 encoding) b
  | (ChunkStr s, _) => Ok s
  end.

(** The parts decoded one after the other, up to the first failure. *)
Fixpoint decode_all (env : Env) (parts : list (chunk * option str))
  : result (list str) :=
  match parts with
  | [] => Ok []
  | p :: rest =>
      match decode_part env p with
      | Raise e => Raise e
      | Ok s =>
          match decode_all env rest with
          | Raise e => Raise e
          | Ok l => Ok (s :: l)
          end
      end
  end.

Definition is_HttpError (e : exn) : bool :=
  match e with HttpError _ => true | _ => false end.

(** The state once one more request has been made. *)
Definition record_request (rq : request) (st : State) : State :=
  {| mailbox := mailbox st; trace := trace st ++ [rq] |}.

(** A stored message with other labels. *)
Definition relabelled (m : stored_message) (labels : list str)
  : stored_message :=
  {| msg_raw := msg_raw m;
     msg_threadId := msg_threadId m;
     msg_labelIds := labels |}.

(** The POST raised, or its status is not 200. *)
Definition call_fails (outcome : post_outcome) : Prop :=
  match outcome with
  | PostRaised _ => True
  | PostResponse status _ => status <> 200%N
  end.

(** ** Scenarios

    Concrete mailboxes and collaborators, used to run the pipeline. *)

Module Scenario.

Definition ascii_bytes (s : string) : bytes := list_byte_of_string s.

(** [Subject: hi] followed by the body [hello world]. *)
Definition raw_hello : str := lit "U3ViamVjdDogaGkKCmhlbGxvIHdvcmxkCg==".
Definition bytes_hello : bytes :=
  ascii_bytes "Subject: hi" ++ [x0a; x0a]
  ++ ascii_bytes "hello world" ++ [x0a].
Definition mime_hello : mime_message :=
  MimeLeaf [(lit "subject", lit "hi")] (lit "text/plain")
    (ascii_bytes "hello world" ++ [x0a]).

(** [Subject: hi] followed by a body that is the single byte 0xFF. *)
Definition raw_ff : str := lit "U3ViamVjdDogaGkKCv8K".
Definition bytes_ff : bytes :=
  ascii_bytes "Subject: hi" ++ [x0a; x0a; xff; x0a].
Definition mime_ff : mime_message :=
  MimeLeaf [(lit "subject", lit "hi")] (lit "text/plain") [xff; x0a].

(** A multipart/alternative message: a text/plain part [hello] and a
    text/html part. *)
Definition raw_alternative : str :=
  lit "U3ViamVjdDogaGkKQ29udGVudC1UeXBlOiBtdWx0aXBhcnQvYWx0ZXJuYXRpdmU7IGJvdW5kYXJ5PSJ4IgoKLS14CkNvbnRlbnQtVHlwZTogdGV4dC9wbGFpbgoKaGVsbG8KLS14CkNvbnRlbnQtVHlwZTogdGV4dC9odG1sCgo8cD5oZWxsbzwvcD4KLS14LS0K".
Definition bytes_alternative : bytes :=
  ascii_bytes "Subject: hi" ++ [x0a]
  ++ ascii_bytes "Content-Type: multipart/alternative; boundary="
  ++ [x22; x78; x22; x0a; x0a]
  ++ ascii_bytes "--x" ++ [x0a]
  ++ ascii_bytes "Content-Type: text/plain" ++ [x0a; x0a]
  ++ ascii_bytes "hello" ++ [x0a]
  ++ ascii_bytes "--x" ++ [x0a]
  ++ ascii_bytes "Content-Type: text/html" ++ [x0a; x0a]
  ++ ascii_bytes "<p>hello</p>" ++ [x0a]
  ++ ascii_bytes "--x--" ++ [x0a].
Definition mime_alternative : mime_message :=
  MimeMultipart
    [(lit "subject", lit "hi");
     (lit "content-type",
      lit "multipart/alternative; boundary=" ++ [34; 120; 34]%N)]
    (lit "multipart/alternative")
    [MimeLeaf [(lit "content-type", lit "text/plain")] (lit "text/plain")
       (ascii_bytes "hello");
     MimeLeaf [(lit "content-type", lit "text/html")] (lit "text/html")
       (ascii_bytes "<p>hello</p>")].

(** A subject that is one encoded word holding the byte 0xFF. *)
Definition bad_subject : str := lit "=?utf-8?q?=FF?=".
Definition raw_bad_subject : str :=
  lit "U3ViamVjdDogPT91dGYtOD9xPz1GRj89CgpoZWxsbwo=".
Definition bytes_bad_subject : bytes :=
  ascii_bytes "Subject: =?utf-8?q?=FF?=" ++ [x0a; x0a]
  ++ ascii_bytes "hello" ++ [x0a].
Definition mime_bad_subject : mime_message :=
  MimeLeaf [(lit "subject", bad_subject)] (lit "text/plain")
    (ascii_bytes "hello" ++ [x0a]).

Definition no_such_raw : exn := OtherException (lit "Incorrect padding").

(** The library on the messages above. *)
Definition b64decode (raw : str) : result bytes :=
  if bool_decide (raw = raw_hello) then Ok bytes_hello
  else if bool_decide (raw = raw_ff) then Ok bytes_ff
  else if bool_decide (raw = raw_alternative) then Ok bytes_alternative
  else if bool_decide (raw = raw_bad_subject) then Ok bytes_bad_subject
  else Raise no_such_raw.

Definition parse (b : bytes) : mime_message :=
  if bool_decide (b = bytes_hello) then mime_hello
  else if bool_decide (b = bytes_ff) then mime_ff
  else if bool_decide (b = bytes_alternative) then mime_alternative
  else if bool_decide (b = bytes_bad_subject) then mime_bad_subject
  else MimeLeaf [] (lit "text/plain") b.

Definition header_parts (header : str)
  : result (list (chunk * option str)) :=
  if bool_decide (header = bad_subject)
  then Ok [(ChunkBytes [xff], Some (lit "utf-8"))]
  else Ok [(ChunkStr header, None)].

Definition codec (name : str) : option (bytes -> option str) :=
  if bool_decide (name = lit "iso-8859-1")
  then Some (fun b => Some (latin1_decode b))
  else None.

(** [json.dumps] on values whose texts need no escape. *)
Definition quoted (s : str) : str := [34%N] ++ s ++ [34%N].

Fixpoint dumps (v : json) : str :=
  match v with
  | JNull => lit "null"
  | JBool true => lit "true"
  | JBool false => lit "false"
  | JNum n =>
      (if n <? 0 then lit "-" else []) ++ str_of_N (Z.to_N (Z.abs n))
  | JStr s => quoted s
  | JArr items => lit "[" ++ join (lit ", ") (map dumps items) ++ lit "]"
  | JObj fields =>
      lit "{"
      ++ join (lit ", ")
           (map (fun kv => quoted (fst kv) ++ lit ": " ++ dumps (snd kv))
              fields)
      ++ lit "}"
  end.

(** The account: unread ids in the order listed, the labels Review and
    Ads, an endpoint that answers by [post], a client that never fails. *)
Definition labels : list label_entry :=
  [{| lbl_id := lit "Label_1"; lbl_name := lit "Review" |};
   {| lbl_id := lit "Label_2"; lbl_name := lit "Ads" |}].

(** The text of the client's 404; every scenario asks about messages the
    account holds, so it is not reached. *)
Definition missing (method id : str) : str :=
  lit "<HttpError 404 when requesting messages/" ++ id ++ lit "/" ++ method
  ++ lit " returned 'Requested entity was not found.'>".

Definition env_of (unread : list str)
    (post : list request -> email_metadata -> post_outcome) : Env :=
  {| api_fault := fun _ _ => None;
     api_unread :=
       fun _ => Some ((fun id => {| ref_id := Some id |}) <$> unread);
     api_labels := fun _ => Some labels;
     api_missing := missing;
     http_post := fun earlier _ email_content => post earlier email_content;
     urlsafe_b64decode := b64decode;
     message_from_bytes := parse;
     decode_header := header_parts;
     codecs_lookup := codec;
     json_dumps := dumps;
     py_str := fun _ => [] |}.
(* [py_str] is not reached: every label of the scenarios is a text. *)

(** The same account behind a client whose listing of the unread
    messages times out. *)
Definition timed_out : exn := OtherException (lit "timed out").

Definition list_times_out (unread : list str)
    (post : list request -> email_metadata -> post_outcome) : Env :=
  {| api_fault :=
       fun _ rq => match rq with ReqList => Some timed_out | _ => None end;
     api_unread :=
       fun _ => Some ((fun id => {| ref_id := Some id |}) <$> unread);
     api_labels := fun _ => Some labels;
     api_missing := missing;
     http_post := fun earlier _ email_content => post earlier email_content;
     urlsafe_b64decode := b64decode;
     message_from_bytes := parse;
     decode_header := header_parts;
     codecs_lookup := codec;
     json_dumps := dumps;
     py_str := fun _ => [] |}.

Definition unread_message (raw : str) : stored_message :=
  {| msg_raw := raw;
     msg_threadId := lit "t1";
     msg_labelIds := [lit "INBOX"; lit "UNREAD"] |}.

Definition state_of (messages : list (str * stored_message)) : State :=
  {| mailbox := list_to_map messages; trace := [] |}.

(** The endpoint answers 200 with the one word [word]. *)
Definition answer (word : string) : post_outcome :=
  PostResponse 200
    (BodyJson (JObj [(lit "message", JObj [(lit "content", JStr (lit word))])])).

Definition answers (word : string) (_ : list request) (_ : email_metadata)
  : post_outcome :=
  answer word.

(** The endpoint answers 500. *)
Definition status_500 (_ : list request) (_ : email_metadata)
  : post_outcome :=
  PostResponse 500
    (BodyJson (JObj [(lit "error", JStr (lit "internal error"))])).

(** The dict that lines 269-307 build from the message [raw_hello]. *)
Definition content_hello : email_metadata :=
  {| md_content := lit "hello world" ++ [10%N];
     md_subject := lit "hi";
     md_from := []; md_to := []; md_date := [] |}.

Definition ref (id : string) : message_ref := {| ref_id := Some (lit id) |}.

End Scenario.

(** ** Vocabulary of the further properties *)

(** A message after some requests: the content and the thread it had,
    and every label it had other than UNREAD. *)
Definition keeps_message (m m' : stored_message) : Prop :=
  msg_raw m' = msg_raw m
  /\ msg_threadId m' = msg_threadId m
  /\ forall l, l ∈ msg_labelIds m -> l <> lit "UNREAD" -> l ∈ msg_labelIds m'.

(** A mailbox after some requests: the same messages, each one kept. *)
Definition evolves (mb mb' : gmap (list N) stored_message) : Prop :=
  forall id,
    match mb !! id, mb' !! id with
    | Some m, Some m' => keeps_message m m'
    | None, None => True
    | _, _ => False
    end.

(** What a piece of the service did about the message [id]: the requests
    [made], a mailbox that evolved, no other message touched. *)
Definition effect (id : str) (st st' : State) (made : list request) : Prop :=
  trace st' = trace st ++ made
  /\ evolves (mailbox st) (mailbox st')
  /\ forall other, other <> id -> mailbox st' !! other = mailbox st !! other.

(** The requests of a full turn of the loop, in their order. *)
Definition turn_requests (id : str) (email_content : email_metadata)
    (labelID : str) : list request :=
  [ReqGet id;
   ReqModify id [] [lit "UNREAD"];
   ReqPost ollama_api_url email_content;
   ReqLabels;
   ReqModify id [labelID] []].

(** The requests a run may make after it has listed the unread messages
    [ids]. *)
Definition run_request (ids : list str) (rq : request) : Prop :=
  match rq with
  | ReqList => False
  | ReqGet id => id ∈ ids
  | ReqLabels => True
  | ReqModify id add remove =>
      id ∈ ids
      /\ ((add = [] /\ remove = [lit "UNREAD"])
          \/ exists labelID, add = [labelID] /\ remove = [])
  | ReqPost url _ => url = ollama_api_url
  end.

(** The entry has an id, and the id is not empty (lines 359-362). *)
Definition has_id (email : message_ref) : bool :=
  match ref_id email with
  | Some email_id => str_truthy email_id
  | None => false
  end.

(** The ids of the entries of a list response. *)
Definition listed_ids (unread_emails : list message_ref) : list str :=
  omap ref_id unread_emails.

(** ** The tools ([handle_call_tool], [send_email], [open_email],
    [trash_email]) *)

Module Tools.

(** [s.split(sep)] for a separator of one character: the pieces between
    the separators, the empty ones included. *)
Fixpoint split_on (sep : N) (s : str) : list str :=
  match s with
  | [] => [[]]
  | c :: s' =>
      if (c =? sep)%N then [] :: split_on sep s'
      else
        match split_on sep s' with
        | piece :: pieces => (c :: piece) :: pieces
        | [] => [[c]]
        end
  end.

(** [s.startswith(prefix)]. *)
Fixpoint startswith (s prefix : str) : bool :=
  match prefix, s with
  | [], _ => true
  | p :: prefix', c :: s' => (c =? p)%N && startswith s' prefix'
  | _ :: _, [] => false
  end.

(** [s.lstrip()] and [s.strip()]: the whitespace at the ends goes. *)
Fixpoint lstrip (s : str) : str :=
  match s with
  | [] => []
  | c :: s' => if isspace c then lstrip s' else s
  end.

Definition strip (s : str) : str := rev (lstrip (rev (lstrip s))).

(** Lines 662-669 of [handle_call_tool]: the subject and the content
    handed to [send_email].  [None] is the [IndexError] of
    [email_lines[0]] on an empty list. *)
Definition subject_and_content (subject message : str)
  : option (str * str) :=
  let email_lines := split_on 10 message in
  match email_lines with
  | [] => None
  | first :: rest =>
      if startswith first (lit "Subject:") then
        Some (strip (drop 8 first), strip (join [10%N] rest))
      else Some (subject, message)
  end.

(** What the tools do besides the requests of the pipeline. *)
Inductive tool_event :=
| SendRequest (raw : str)
| TrashRequest (id : str)
| BrowserOpen (url : str).

Record ToolState := {
  service : State;
  events : list tool_event;
}.

(** The collaborators of the tools: those of the service, and
    - [user_email], the address of the account;
    - [encode_email to from subject content], the text
      [urlsafe_b64encode(message_obj.as_bytes()).decode()] for the
      [EmailMessage] with this content and these headers;
    - [send_answer], the id in the answer of [messages().send], or the
      exception; [trash_answer], the exception of [messages().trash] if
      any, and [trash_labels], the labels the client gives a trashed
      message; [browser_open], the exception of [webbrowser.open] if any;
    - [json_loads] ([None] for a text that is not JSON), and [str()] of
      the list of unread messages and of the dict of an email. *)
Record ToolEnv := {
  base : Env;
  user_email : str;
  encode_email : str -> str -> str -> str -> result str;
  send_answer : list tool_event -> str -> result str;
  trash_answer : list tool_event -> str -> option exn;
  trash_labels : list str -> list str;
  browser_open : list tool_event -> str -> option exn;
  json_loads : str -> option json;
  repr_unread : list message_ref -> str;
  repr_metadata : email_metadata -> str;
}.

(** The exceptions of the tool layer: its own, and those that come up
    from the service. *)
Inductive tool_error :=
| ValueError (text : str)
| JSONDecodeError
| KeyError (key : str)
| IndexError
| ServiceError (e : exn).

Inductive tool_result (A : Type) :=
| Done (a : A)
| Failed (e : tool_error).

Arguments Done {A} a.
Arguments Failed {A} e.

Definition T (A : Type) : Type := ToolState -> ToolState * tool_result A.

Definition done {A} (a : A) : T A := fun ts => (ts, Done a).

Definition fail {A} (e : tool_error) : T A := fun ts => (ts, Failed e).

Definition tbind {A B} (m : T A) (k : A -> T B) : T B :=
  fun ts =>
    match m ts with
    | (ts', Done a) => k a ts'
    | (ts', Failed e) => (ts', Failed e)
    end.

Notation "x <-- m ;; k" := (tbind m (fun x => k))
  (at level 100, m at next level, right associativity).

(** A method of the service, called from a tool. *)
Definition call {A} (m : M A) : T A :=
  fun ts =>
    match m (service ts) with
    | (st', Ok a) => ({| service := st'; events := events ts |}, Done a)
    | (st', Raise e) =>
        ({| service := st'; events := events ts |}, Failed (ServiceError e))
    end.

(** The dict [send_email] returns. *)
Inductive send_reply :=
| SendSuccess (message_id : str)
| SendError (error_message : str).

Definition send_email (tenv : ToolEnv) (recipient_id subject message : str)
  : T send_reply :=
  fun ts =>
    match encode_email tenv recipient_id (user_email tenv) subject message with
    | Raise (HttpError text) => (ts, Done (SendError text))
    | Raise e => (ts, Failed (ServiceError e))
    | Ok encoded_message =>
        let ts' := {| service := service ts;
                      events := events ts ++ [SendRequest encoded_message] |}
        in
        match send_answer tenv (events ts) encoded_message with
        | Ok id => (ts', Done (SendSuccess id))
        | Raise (HttpError text) => (ts', Done (SendError text))
        | Raise e => (ts', Failed (ServiceError e))
        end
    end.

Definition open_email (tenv : ToolEnv) (email_id : str) : T str :=
  fun ts =>
    let url := lit "https://mail.google.com/#all/" ++ email_id in
    let ts' := {| service := service ts;
                  events := events ts ++ [BrowserOpen url] |} in
    match browser_open tenv (events ts) url with
    | None => (ts', Done (lit "Email opened in browser successfully."))
    | Some (HttpError text) =>
        (ts', Done (lit "An HttpError occurred: " ++ text))
    | Some e => (ts', Failed (ServiceError e))
    end.

Definition trash_email (tenv : ToolEnv) (email_id : str) : T str :=
  fun ts =>
    let st := service ts in
    let events' := events ts ++ [TrashRequest email_id] in
    let answer :=
      match trash_answer tenv (events ts) email_id with
      | Some e => Some e
      | None =>
          match mailbox st !! email_id with
          | Some _ => None
          | None => Some (not_found (base tenv) (lit "trash") email_id)
          end
      end in
    match answer with
    | None =>
        ({| service :=
              {| mailbox :=
                   alter (fun m =>
                            relabelled m (trash_labels tenv (msg_labelIds m)))
                     email_id (mailbox st);
                 trace := trace st |};
            events := events' |},
         Done (lit "Email moved to trash successfully."))
    | Some (HttpError text) =>
        ({| service := st; events := events' |},
         Done (lit "An HttpError occurred: " ++ text))
    | Some e =>
        ({| service := st; events := events' |}, Failed (ServiceError e))
    end.

(** What a tool returns: the text of the one [TextContent], and the
    data of its artifact when it has one. *)
Inductive artifact :=
| UnreadData (reply : unread_reply)
| EmailData (reply : read_reply).

Record TextContent := {
  text : str;
  data : option artifact;
}.

Definition plain (s : str) : list TextContent :=
  [{| text := s; data := None |}].

(** [arguments.get(key)]: [arguments] may be [None]. *)
Definition argument (arguments : option (list (str * str))) (key : str)
  : T (option str) :=
  match arguments with
  | None => fail (ServiceError AttributeError)
  | Some fields => done (assoc key fields)
  end.

(** [arguments.get(key)] with the test that follows it. *)
Definition required (arguments : option (list (str * str))) (key : str)
    (missing : string) : T str :=
  value <-- argument arguments key ;;
  match value with
  | Some (c :: s) => done (c :: s)
  | _ => fail (ValueError (lit missing))
  end.

Definition result_of_option {A} (o : option A) (e : tool_error) : T A :=
  match o with
  | Some a => done a
  | None => fail e
  end.

Definition of_result {A} (r : result A) : T A :=
  match r with
  | Ok a => done a
  | Raise e => fail (ServiceError e)
  end.

(** The arguments are those of the input schemas: texts. *)
Definition handle_call_tool (tenv : ToolEnv) (name : str)
    (arguments : option (list (str * str))) : T (list TextContent) :=
  if bool_decide (name = lit "label-email") then
    label <-- required arguments (lit "label") "Missing recipient parameter" ;;
    email_id <--
      required arguments (lit "email_id") "Missing email ID parameter" ;;
    send_response <-- call (label_email (base tenv) email_id (JStr label)) ;;
    json_data <-- result_of_option (json_loads tenv send_response)
                    JSONDecodeError ;;
    id <-- of_result (py_get json_data (lit "id") JNull) ;;
    if negb (truthy id) then
      match json_data with
      | JObj fields =>
          message <-- result_of_option (assoc (lit "message") fields)
                        (KeyError (lit "message")) ;;
          fail (ValueError (format_label (base tenv) message))
      | _ => fail (ServiceError AttributeError)
      end
    else done (plain (lit "Email successfully classified " ++ email_id))
  else if bool_decide (name = lit "send-email") then
    recipient <--
      required arguments (lit "recipient_id") "Missing recipient parameter" ;;
    subject <--
      required arguments (lit "subject") "Missing subject parameter" ;;
    message <--
      required arguments (lit "message") "Missing message parameter" ;;
    sent <-- result_of_option (subject_and_content subject message)
               IndexError ;;
    send_response <-- send_email tenv recipient (fst sent) (snd sent) ;;
    match send_response with
    | SendSuccess message_id =>
        done (plain (lit "Email sent successfully. Message ID: "
                     ++ message_id))
    | SendError error_message =>
        done (plain (lit "Failed to send email: " ++ error_message))
    end
  else if bool_decide (name = lit "get-unread-emails") then
    unread_emails <-- call (get_unread_emails (base tenv)) ;;
    done [{| text := match unread_emails with
                     | UnreadList l => repr_unread tenv l
                     | UnreadError s => s
                     end;
             data := Some (UnreadData unread_emails) |}]
  else if bool_decide (name = lit "read-email") then
    email_id <--
      required arguments (lit "email_id") "Missing email ID parameter" ;;
    retrieved_email <-- call (read_email (base tenv) email_id) ;;
    done [{| text := match retrieved_email with
                     | Metadata md => repr_metadata tenv md
                     | ReadError s => s
                     end;
             data := Some (EmailData retrieved_email) |}]
  else if bool_decide (name = lit "open-email") then
    email_id <--
      required arguments (lit "email_id") "Missing email ID parameter" ;;
    msg <-- open_email tenv email_id ;;
    done (plain msg)
  else if bool_decide (name = lit "trash-email") then
    email_id <--
      required arguments (lit "email_id") "Missing email ID parameter" ;;
    msg <-- trash_email tenv email_id ;;
    done (plain msg)
  else if bool_decide (name = lit "mark-email-as-read") then
    email_id <--
      required arguments (lit "email_id") "Missing email ID parameter" ;;
    msg <-- call (mark_email_as_read (base tenv) email_id) ;;
    done (plain msg)
  else fail (ValueError (lit "Unknown tool: " ++ name)).

End Tools.

(** ** Scenarios for the tools *)

Module ToolScenario.

(** The message to a@example.com from me@example.com, subject Lunch,
    content [At noon?], as [send_email] encodes it. *)
Definition raw_lunch : str :=
  lit "Q29udGVudC1UeXBlOiB0ZXh0L3BsYWluOyBjaGFyc2V0PSJ1dGYtOCIKQ29udGVudC1UcmFuc2Zlci1FbmNvZGluZzogN2JpdApNSU1FLVZlcnNpb246IDEuMApUbzogYUBleGFtcGxlLmNvbQpGcm9tOiBtZUBleGFtcGxlLmNvbQpTdWJqZWN0OiBMdW5jaAoKQXQgbm9vbj8K".

Definition encode (to from subject content : str) : result str :=
  if bool_decide ((to, from, subject, content)
                  = (lit "a@example.com", lit "me@example.com",
                     lit "Lunch", lit "At noon?"))
  then Ok raw_lunch
  else Raise (OtherException (lit "not a message of the scenario")).

(** The texts [label_email] dumps in the scenarios, read back. *)
Definition urgent_not_found : json :=
  JObj [(lit "error", JStr (lit "true"));
        (lit "message", JStr (lit "Label 'Urgent' not found."))].

Definition labelled_ads : json :=
  message_resource (lit "A")
    {| msg_raw := Scenario.raw_hello;
       msg_threadId := lit "t1";
       msg_labelIds := [lit "INBOX"; lit "UNREAD"; lit "Label_2"] |}.

Definition loads (s : str) : option json :=
  if bool_decide (s = Scenario.dumps urgent_not_found)
  then Some urgent_not_found
  else if bool_decide (s = Scenario.dumps labelled_ads)
  then Some labelled_ads
  else None.

(** The client sends, giving the id [sent-1], or answers [answer]. *)
Definition tenv_of (answer : result str) : Tools.ToolEnv :=
  {| Tools.base := Scenario.env_of [lit "A"] (Scenario.answers "Review");
     Tools.user_email := lit "me@example.com";
     Tools.encode_email := encode;
     Tools.send_answer := fun _ _ => answer;
     Tools.trash_answer := fun _ _ => None;
     Tools.trash_labels := fun labels => labels ++ [lit "TRASH"];
     Tools.browser_open := fun _ _ => None;
     Tools.json_loads := loads;
     Tools.repr_unread := fun _ => [];
     Tools.repr_metadata := fun _ => [] |}.
(* The two [repr] are not reached in the scenarios. *)

Definition tstate : Tools.ToolState :=
  {| Tools.service :=
       Scenario.state_of
         [(lit "A", Scenario.unread_message Scenario.raw_hello)];
     Tools.events := [] |}.

End ToolScenario.

(** ** The training script ([train.py]) *)

Module Train.

(** What opening and parsing the training file comes to. *)
Inductive file_outcome :=
| FileNotFound
| NotJson
| OpenRaises (e : exn)
| Parsed (data : json).

(** What the POST of an entry comes to: the JSON of a response whose
    status passes [raise_for_status], a [RequestException] (with its
    text), or another exception. *)
Inductive post_reply :=
| Replied (body : json)
| RequestException (text : str)
| PostRaises (e : exn).

(** The lines the script prints. *)
Inductive output :=
| FileNotFoundLine (file_path : str)
| NotJsonLine (file_path : str)
| PostingLine (content : json)
| PostErrorLine (url : str) (text : str)
| ResponseLine (response : json).

(** The collaborators: the file system with [json.load], the server
    (which sees the requests posted before), and [str()] of a value
    that is not a text. *)
Record TrainEnv := {
  read_file : str -> file_outcome;
  post : list (str * json) -> str -> json -> post_reply;
  str_of : json -> str;
}.

Record TrainState := {
  posted : list (str * json);
  printed : list output;
}.

Definition R (A : Type) : Type := TrainState -> TrainState * result A.

Definition print (line : output) (st : TrainState) : TrainState :=
  {| posted := posted st; printed := printed st ++ [line] |}.

Definition read_training_data (env : TrainEnv) (file_path : str) : R json :=
  fun st =>
    match read_file env file_path with
    | Parsed data => (st, py_get data (lit "training_data") (JArr []))
    | FileNotFound => (print (FileNotFoundLine file_path) st, Ok (JArr []))
    | NotJson => (print (NotJsonLine file_path) st, Ok (JArr []))
    | OpenRaises e => (st, Raise e)
    end.

Definition prompt : str :=
  lit "The following is to be used for training the model. "
  ++ lit "You were asked to provide an analysis of email content and provide a one word classification "
  ++ lit "The content is a JSON object with the one or more of the following elements: "
  ++ lit "input - provides the data you were asked to evaluate "
  ++ lit "label - the response you provided "
  ++ lit "evaluation - what you should have provided or letting you know your evaluation was correct ".

(** [f"{v}"]. *)
Definition format (env : TrainEnv) (v : json) : str :=
  match v with
  | JStr s => s
  | _ => str_of env v
  end.

Definition role (name : string) (content : str) : json :=
  JObj [(lit "role", JStr (lit name)); (lit "content", JStr content)].

(** The dict [content] of [post_to_url], for the values that
    [entry.get] gave. *)
Definition content_of (env : TrainEnv) (input evaluation : json) : json :=
  JObj [(lit "model", JStr (lit "ai/deepseek-r1-distill-llama:8B-Q4_K_M"));
        (lit "messages",
         JArr [role "system" prompt;
               role "assistant"
                 (lit "{'input':" ++ format env input ++ lit "}");
               role "user"
                 (lit "{'evaluation':" ++ format env evaluation ++ lit "}")]);
        (lit "stream", JBool false)].

Definition post_to_url (env : TrainEnv) (url : str) (entry : json) : R json :=
  fun st =>
    match py_get entry (lit "input") JNull with
    | Raise e => (st, Raise e)
    | Ok input =>
        match py_get entry (lit "evaluation") JNull with
        | Raise e => (st, Raise e)
        | Ok evaluation =>
            let content := content_of env input evaluation in
            let st1 := print (PostingLine content) st in
            let st2 := {| posted := posted st1 ++ [(url, content)];
                          printed := printed st1 |} in
            match post env (posted st) url content with
            | Replied body => (st2, Ok body)
            | RequestException text =>
                (print (PostErrorLine url text) st2, Ok (JObj []))
            | PostRaises e => (st2, Raise e)
            end
        end
    end.

(** What [for entry in training_data] goes through. *)
Definition iterate (training_data : json) : result (list json) :=
  match training_data with
  | JArr items => Ok items
  | JObj fields => Ok ((fun kv => JStr (fst kv)) <$> fields)
  | JStr s => Ok ((fun c => JStr [c]) <$> s)
  | JNull => Raise (OtherException (lit "'NoneType' object is not iterable"))
  | JBool _ => Raise (OtherException (lit "'bool' object is not iterable"))
  | JNum _ => Raise (OtherException (lit "'int' object is not iterable"))
  end.

Definition url : str :=
  lit "http://localhost:9001/engines/llama.cpp/v1/chat/completions".

Fixpoint train_loop (env : TrainEnv) (entries : list json) : R unit :=
  fun st =>
    match entries with
    | [] => (st, Ok tt)
    | entry :: rest =>
        match post_to_url env url entry st with
        | (st1, Ok response) =>
            train_loop env rest (print (ResponseLine response) st1)
        | (st1, Raise e) => (st1, Raise e)
        end
    end.

(** [main], from the parsed argument [--training-file] on. *)
Definition main (env : TrainEnv) (training_file : str) : R unit :=
  fun st =>
    match read_training_data env training_file st with
    | (st1, Raise e) => (st1, Raise e)
    | (st1, Ok training_data) =>
        match iterate training_data with
        | Raise e => (st1, Raise e)
        | Ok entries => train_loop env entries st1
        end
    end.

(** A dict, as opposed to the other values of JSON. *)
Definition is_dict (v : json) : bool :=
  match v with JObj _ => true | _ => false end.

(** The request [post_to_url] makes for a dict. *)
Definition request_of (env : TrainEnv) (entry : json) : str * json :=
  match entry with
  | JObj fields =>
      (url,
       content_of env
         (match assoc (lit "input") fields with Some v => v | None => JNull end)
         (match assoc (lit "evaluation") fields with
          | Some v => v
          | None => JNull
          end))
  | _ => (url, JNull)
  end.

End Train.

(** ** A scenario for the training script *)

Module TrainScenario.

Definition entry (input evaluation : string) : json :=
  JObj [(lit "input", JStr (lit input));
        (lit "label", JStr (lit "Ads"));
        (lit "evaluation", JStr (lit evaluation))].

Definition entries : list json :=
  [entry "Your invoice" "Review"; entry "50% off" "correct"].

(** The file [data.json] holds the two entries; no other file exists.
    The server refuses the first connection and answers from then on. *)
Definition env : Train.TrainEnv :=
  {| Train.read_file :=
       fun path =>
         if bool_decide (path = lit "data.json")
         then Train.Parsed (JObj [(lit "training_data", JArr entries)])
         else Train.FileNotFound;
     Train.post :=
       fun earlier _ _ =>
         match earlier with
         | [] => Train.RequestException (lit "Connection refused")
         | _ => Train.Replied (JObj [(lit "id", JStr (lit "cmpl-1"))])
         end;
     Train.str_of := fun _ => lit "None" |}.
(* [str_of] is reached for [None] only. *)

Definition start : Train.TrainState :=
  {| Train.posted := []; Train.printed := [] |}.

End TrainScenario.

(** * Properties *)

(** ** Facts about [split] and [join] *)

Lemma split_from_word (w : str) : forall cur s,
  Forall (fun c => isspace c = false) w ->
  split_from cur (w ++ s) = split_from (rev w ++ cur) s.
Proof.
  induction w as [|c w IH]; intros cur s Hw; [reflexivity|].
  inversion Hw as [|? ? Hc Hw']; subst. cbn [app split_from].
  rewrite Hc, IH by assumption.
  cbn [rev]. now rewrite <- app_assoc.
Qed.

Lemma split_from_words : forall s cur,
  Forall (fun c => isspace c = false) cur ->
  Forall is_word (split_from cur s).
Proof.
  induction s as [|c s IH]; intros cur Hcur; cbn [split_from].
  - destruct cur as [|d cur]; constructor; [|constructor].
    split.
    + intros E. apply (f_equal (@length N)) in E.
      rewrite length_rev in E. discriminate.
    + now apply Forall_rev.
  - destruct (isspace c) eqn:Hc.
    + destruct cur as [|d cur]; [apply IH; constructor|].
      constructor; [|apply IH; constructor].
      split.
      * intros E. apply (f_equal (@length N)) in E.
        rewrite length_rev in E. discriminate.
      * now apply Forall_rev.
    + apply IH. now constructor.
Qed.

Lemma split_words (s : str) : Forall is_word (split s).
Proof. apply split_from_words. constructor. Qed.

Lemma rev_word_case {A} (w : str) (a b : A) :
  w <> [] -> match rev w with [] => a | _ :: _ => b end = b.
Proof.
  intros Hne. destruct (rev w) eqn:E; [|reflexivity].
  apply (f_equal (@length N)) in E. rewrite length_rev in E.
  destruct w; [congruence|discriminate].
Qed.

Lemma split_word_alone (w : str) : is_word w -> split w = [w].
Proof.
  intros [Hne Hw]. unfold split.
  rewrite <- (app_nil_r w) at 1.
  rewrite split_from_word by assumption.
  rewrite app_nil_r. cbn [split_from].
  rewrite rev_word_case by assumption. now rewrite rev_involutive.
Qed.

Lemma join_cons (sep w w' : str) (ws : list str) :
  join sep (w :: w' :: ws) = w ++ sep ++ join sep (w' :: ws).
Proof. reflexivity. Qed.

Lemma split_join (ws : list str) :
  Forall is_word ws -> split (join (lit " ") ws) = ws.
Proof.
  induction ws as [|w ws IH]; intros Hws; [reflexivity|].
  inversion Hws as [|? ? Hw Hws']; subst.
  destruct ws as [|w' ws].
  - now apply split_word_alone.
  - rewrite join_cons. unfold split.
    destruct Hw as [Hne Hw].
    rewrite split_from_word by assumption.
    rewrite app_nil_r.
    change (lit " " ++ join (lit " ") (w' :: ws))
      with (32%N :: join (lit " ") (w' :: ws)).
    cbn [split_from].
    change (isspace 32) with true. cbv iota.
    rewrite rev_word_case by assumption.
    rewrite rev_involutive. f_equal. now apply IH.
Qed.

(** ** The word cap *)

Lemma count_words_split (text : str) :
  count_words text = Z.of_nat (length (split text)).
Proof. destruct text; reflexivity. Qed.

Lemma normalize_body_nonempty (body : str) :
  body <> [] -> normalize_body (Some body) = cap_words body.
Proof. destruct body; [congruence|reflexivity]. Qed.

(** C5, as amended.  For a decoded body that is not empty, with [w]
    words: the content has [min w 10000] words, namely the first
    [min w 10000] words of the body in their order; above the cap the
    content is these words joined by single spaces; up to the cap the
    content is the body itself, its spacing untouched. *)
Theorem word_cap_law (body : str) :
  body <> [] ->
  let w := count_words body in
  let content := normalize_body (Some body) in
  split content = take (Z.to_nat (Z.min w 10000)) (split body)
  /\ count_words content = Z.min w 10000
  /\ (w > 10000 -> content = join (lit " ") (split content))
  /\ (w <= 10000 -> content = body).
Proof.
  intros Hne w content. subst content.
  rewrite normalize_body_nonempty by assumption.
  unfold cap_words. fold w.
  assert (Hw : w = Z.of_nat (length (split body)))
    by apply count_words_split.
  destruct (w >? 10000) eqn:Hcap.
  - apply Z.gtb_lt in Hcap.
    assert (Hsplit :
      split (join (lit " ") (take (Z.to_nat 10000) (split body)))
      = take (Z.to_nat 10000) (split body)).
    { apply split_join, Forall_take, split_words. }
    rewrite count_words_split, Hsplit, length_take.
    rewrite Z.min_r by lia.
    split; [reflexivity|].
    split; [lia|].
    split; [reflexivity|lia].
  - assert (Hle : w <= 10000).
    { destruct (Z.gtb_spec w 10000); [discriminate|assumption]. }
    rewrite Z.min_l by lia.
    split; [rewrite take_ge; [reflexivity|lia]|].
    split; [reflexivity|].
    split; [lia|reflexivity].
Qed.

Lemma word_cap_law_witness :
  lit "a  b" <> []
  /\ split (normalize_body (Some (lit "a  b"))) = [lit "a"; lit "b"]
  /\ normalize_body (Some (lit "a  b")) = lit "a  b".
Proof.
  split; [discriminate|].
  destruct (word_cap_law (lit "a  b")) as (Hs & _ & _ & Hsame);
    [discriminate|].
  split; [exact Hs | apply Hsame; vm_compute; discriminate].
Defined.

(** C5 as stated fails.  A body of two words separated by two spaces
    keeps both spaces, where the words joined by single spaces have one;
    and an empty body, of no word, gives a content of three words. *)
Lemma short_body_keeps_spacing :
  let body := lit "a  b" in
  normalize_body (Some body) = lit "a  b"
  /\ join (lit " ")
       (take (Z.to_nat (Z.min (count_words body) 10000)) (split body))
     = lit "a b"
  /\ normalize_body (Some body)
     <> join (lit " ")
          (take (Z.to_nat (Z.min (count_words body) 10000)) (split body))
  /\ count_words [] = 0
  /\ count_words (normalize_body (Some [])) = 3.
Proof. vm_compute. repeat split; discriminate. Qed.

(** ** Body extraction *)

(** Whatever its parts, a multipart message whose own type is not
    text/plain gives no body. *)
Lemma extract_body_multipart headers content_type parts :
  content_type <> lit "text/plain" ->
  extract_body (MimeMultipart headers content_type parts) = Ok None.
Proof.
  intros Hne. unfold extract_body. cbn.
  rewrite bool_decide_eq_false_2; [reflexivity|assumption].
Qed.

(** A message that is not multipart is decoded as utf-8, strictly. *)
Lemma extract_body_leaf headers content_type payload :
  extract_body (MimeLeaf headers content_type payload)
  = match utf8_decode payload with
    | Some body => Ok (Some body)
    | None => Raise UnicodeDecodeError
    end.
Proof. reflexivity. Qed.

(** Without a body the content is the sentinel. *)
Lemma normalize_body_sentinel :
  normalize_body None = lit "THIS IS SPAM"
  /\ normalize_body (Some []) = lit "THIS IS SPAM".
Proof. split; reflexivity. Qed.

(** ** Asking for a message *)

Lemma execute_run env rq st :
  execute env rq st
  = ({| mailbox := mailbox st; trace := trace st ++ [rq] |},
     match api_fault env (trace st) rq with
     | Some e => Raise e
     | None => Ok tt
     end).
Proof. unfold execute. now destruct (api_fault env (trace st) rq). Qed.

(** The lookup of line 264 raises before any request: nothing is
    fetched, and the state is as it was. *)
Lemma fetch_and_decode_run env email_id st :
  fetch_and_decode env email_id st = (st, Raise AttributeError).
Proof. reflexivity. Qed.

(** [read_email] catches [HttpError] only: the [AttributeError] of line
    264 leaves it, and line 312 is not reached. *)
Lemma read_email_run env email_id st :
  read_email env email_id st = (st, Raise AttributeError).
Proof. reflexivity. Qed.

(** C4 on the code: a multipart/alternative message M whose first part
    is text/plain with the payload [hello].  The part is among those
    walked, yet lines 276-287 extract no body from it, and line 292 would
    make the content the sentinel.  [read_email] itself does not get
    that far: it raises at line 264, and the run returns no outcome
    after the list request alone, so M is not classified. *)
Theorem multipart_plain_part_not_read :
  let env := Scenario.env_of [lit "M"] (Scenario.answers "Review") in
  let st := Scenario.state_of
              [(lit "M", Scenario.unread_message Scenario.raw_alternative)] in
  (get_content_type <$> walk Scenario.mime_alternative)
    = [lit "multipart/alternative"; lit "text/plain"; lit "text/html"]
  /\ (get_payload_decoded <$> walk Scenario.mime_alternative) !! 1%nat
     = Some (Some (Scenario.ascii_bytes "hello"))
  /\ extract_body Scenario.mime_alternative = Ok None
  /\ normalize_body None = lit "THIS IS SPAM"
  /\ read_email env (lit "M") st = (st, Raise AttributeError)
  /\ process_and_label_emails env st = (record_request ReqList st, Ok []).
Proof. vm_compute. repeat split; reflexivity. Qed.

(** C9 on the code: a message B that is not multipart and whose body is
    the bytes FF 0A.  Line 290 decodes them as utf-8 and raises, where
    the permissive codec of the multipart branch decodes the same bytes.
    [read_email] itself raises at line 264, before any body is decoded,
    and the run returns no outcome after the list request alone. *)
Theorem single_body_decode_raises :
  let env := Scenario.env_of [lit "B"] (Scenario.answers "Review") in
  let st := Scenario.state_of
              [(lit "B", Scenario.unread_message Scenario.raw_ff)] in
  utf8_decode [xff; x0a] = None
  /\ latin1_decode [xff; x0a] = [255; 10]%N
  /\ extract_body Scenario.mime_ff = Raise UnicodeDecodeError
  /\ read_email env (lit "B") st = (st, Raise AttributeError)
  /\ process_and_label_emails env st = (record_request ReqList st, Ok []).
Proof. vm_compute. repeat split; reflexivity. Qed.

(** ** Header decoding *)

Lemma decode_parts_all env parts : forall decoded_string,
  decode_parts env parts decoded_string
  = match decode_all env parts with
    | Ok l => Ok (decoded_string ++ concat l)
    | Raise e => Raise e
    end.
Proof.
  induction parts as [|[[b|s] encoding] rest IH]; intros acc; cbn.
  - now rewrite app_nil_r.
  - destruct (bytes_decode env (encoding_or_utf8 encoding) b) as [s|e];
      [|reflexivity].
    rewrite IH. destruct (decode_all env rest); [|reflexivity].
    now rewrite <- app_assoc.
  - rewrite IH. destruct (decode_all env rest); [|reflexivity].
    now rewrite <- app_assoc.
Qed.

(** C8, as amended.  [decode_mime_header] returns the parts that
    [decode_header] found, each bytes part decoded under its charset
    (utf-8 when it has none), one after the other; when [decode_header]
    or the decoding of a part raises, so does [decode_mime_header], with
    the same exception: the header is not replaced by its raw text. *)
Theorem decode_mime_header_raises env header :
  decode_mime_header env header
  = match decode_header env header with
    | Raise e => Raise e
    | Ok parts =>
        match decode_all env parts with
        | Ok l => Ok (concat l)
        | Raise e => Raise e
        end
    end.
Proof.
  unfold decode_mime_header.
  destruct (decode_header env header) as [parts|e]; [|reflexivity].
  now rewrite decode_parts_all.
Qed.

(** C8 as stated fails: the header is one encoded word that holds the
    byte 0xFF.  [decode_header] returns the byte with its charset, and
    [decode_mime_header] raises where the claim has it return the raw
    header. *)
Lemma bad_encoded_word_raises :
  let env := Scenario.env_of [lit "H"] (Scenario.answers "Review") in
  decode_header env Scenario.bad_subject
    = Ok [(ChunkBytes [xff], Some (lit "utf-8"))]
  /\ decode_mime_header env Scenario.bad_subject = Raise UnicodeDecodeError
  /\ decode_mime_header env Scenario.bad_subject <> Ok Scenario.bad_subject.
Proof. vm_compute. repeat split; discriminate. Qed.

(** ** Marking a message read *)

Lemma messages_modify_run env id add remove st :
  messages_modify env id add remove st
  = let st1 := record_request (ReqModify id add remove) st in
    match api_fault env (trace st) (ReqModify id add remove) with
    | Some e => (st1, Raise e)
    | None =>
        match mailbox st !! id with
        | Some m =>
            let m' :=
              relabelled m (modified_labels (msg_labelIds m) add remove) in
            ({| mailbox := <[id := m']> (mailbox st); trace := trace st1 |},
             Ok (message_resource id m'))
        | None => (st1, Raise (not_found env (lit "modify") id))
        end
    end.
Proof.
  unfold messages_modify, bind. rewrite execute_run.
  destruct (api_fault env (trace st) (ReqModify id add remove));
    reflexivity.
Qed.

Lemma removing_unread (labels : list str) :
  modified_labels labels [] [lit "UNREAD"]
  = filter (fun l => l <> lit "UNREAD") labels.
Proof.
  unfold modified_labels. rewrite filter_nil, app_nil_r.
  apply list_filter_iff. intros l.
  rewrite list_elem_of_singleton. reflexivity.
Qed.

Lemma mark_email_as_read_run env email_id st :
  mark_email_as_read env email_id st
  = let rq := ReqModify email_id [] [lit "UNREAD"] in
    let st1 := record_request rq st in
    match api_fault env (trace st) rq with
    | Some (HttpError text) =>
        (st1, Ok (lit "An HttpError occurred: " ++ text))
    | Some e => (st1, Raise e)
    | None =>
        match mailbox st !! email_id with
        | Some m =>
            ({| mailbox :=
                  <[email_id :=
                      relabelled m
                        (filter (fun l => l <> lit "UNREAD") (msg_labelIds m))]>
                    (mailbox st);
                trace := trace st1 |},
             Ok (lit "Email marked as read."))
        | None =>
            (st1,
             Ok (lit "An HttpError occurred: "
                 ++ api_missing env (lit "modify") email_id))
        end
    end.
Proof.
  unfold mark_email_as_read, try_except_HttpError, bind, ret.
  rewrite messages_modify_run. cbv zeta.
  destruct (api_fault env (trace st) _) as [e|].
  - now destruct e.
  - destruct (mailbox st !! email_id) as [m|]; [|reflexivity].
    now rewrite removing_unread.
Qed.

(** C10.  [mark_email_as_read] makes one request: a modify of the
    message that removes the label UNREAD and adds none.  No other
    message changes.  When the client answers, the message keeps its
    content and every label other than UNREAD, and the method returns
    its confirmation; when the client raises an [HttpError], the mailbox
    is as before and the method returns the text of the error. *)
Theorem mark_email_as_read_frame env email_id st :
  let st' := fst (mark_email_as_read env email_id st) in
  let r := snd (mark_email_as_read env email_id st) in
  let rq := ReqModify email_id [] [lit "UNREAD"] in
  trace st' = trace st ++ [rq]
  /\ (forall other, other <> email_id ->
        mailbox st' !! other = mailbox st !! other)
  /\ (forall m, api_fault env (trace st) rq = None ->
        mailbox st !! email_id = Some m ->
        r = Ok (lit "Email marked as read.")
        /\ exists m', mailbox st' !! email_id = Some m'
           /\ msg_raw m' = msg_raw m
           /\ msg_threadId m' = msg_threadId m
           /\ msg_labelIds m'
              = filter (fun l => l <> lit "UNREAD") (msg_labelIds m)
           /\ forall l, l <> lit "UNREAD" ->
                (l ∈ msg_labelIds m' <-> l ∈ msg_labelIds m))
  /\ (forall text, api_fault env (trace st) rq = Some (HttpError text) ->
        r = Ok (lit "An HttpError occurred: " ++ text)
        /\ mailbox st' = mailbox st).
Proof.
  cbv zeta. rewrite mark_email_as_read_run. cbv zeta.
  destruct (api_fault env (trace st) _) as [e|] eqn:Hfault.
  - destruct e; cbn [fst snd]; (split; [reflexivity|]);
      (split; [reflexivity|]); (split; [discriminate|]);
      intros text' [=]; subst. split; reflexivity.
  - destruct (mailbox st !! email_id) as [m|] eqn:Hm; cbn [fst snd mailbox trace].
    + split; [reflexivity|].
      split; [intros other Hne; now rewrite lookup_insert_ne|].
      split; [|discriminate].
      intros m0 _ [= <-]. split; [reflexivity|].
      eexists. split; [apply lookup_insert_eq|].
      cbn. repeat split; try reflexivity.
      * intros Hl. apply list_elem_of_filter in Hl. tauto.
      * intros Hl. apply list_elem_of_filter. tauto.
    + split; [reflexivity|].
      split; [reflexivity|].
      split; [discriminate|discriminate].
Qed.

Lemma mark_email_as_read_frame_witness :
  let env := Scenario.env_of [lit "A"] (Scenario.answers "Review") in
  let st := Scenario.state_of
              [(lit "A", Scenario.unread_message Scenario.raw_hello);
               (lit "B", Scenario.unread_message Scenario.raw_ff)] in
  let st' := fst (mark_email_as_read env (lit "A") st) in
  mailbox st' !! lit "B" = mailbox st !! lit "B"
  /\ snd (mark_email_as_read env (lit "A") st)
     = Ok (lit "Email marked as read.")
  /\ msg_labelIds <$> mailbox st' !! lit "A" = Some [lit "INBOX"].
Proof.
  intros env st st'.
  destruct (mark_email_as_read_frame env (lit "A") st)
    as (_ & Hother & Hdone & _).
  split; [apply Hother; discriminate|].
  destruct (Hdone (Scenario.unread_message Scenario.raw_hello))
    as (Hr & m' & Hm' & _ & _ & Hlabels & _);
    [reflexivity | vm_compute; reflexivity |].
  split; [exact Hr|].
  subst st'. rewrite Hm'. cbn. rewrite Hlabels. reflexivity.
Defined.

(** ** Applying a label *)

Lemma label_email_run env email_id label st :
  label_email env email_id label st
  = let st1 := record_request ReqLabels st in
    match api_fault env (trace st) ReqLabels with
    | Some (HttpError text) =>
        (st1, Ok (lit "An ttpError occurred: " ++ text))
    | Some e => (st1, Raise e)
    | None =>
        match api_labels env (trace st) with
        | None => (st1, Ok (lit "No labels found in the account."))
        | Some labels =>
            match find_label_id labels label with
            | Some labelID =>
                if str_truthy labelID then
                  match messages_modify env email_id [labelID] [] st1 with
                  | (st2, Ok message) => (st2, Ok (json_dumps env message))
                  | (st2, Raise (HttpError text)) =>
                      (st2, Ok (lit "An ttpError occurred: " ++ text))
                  | (st2, Raise e) => (st2, Raise e)
                  end
                else (st1, Ok (label_not_found env label))
            | None => (st1, Ok (label_not_found env label))
            end
        end
    end.
Proof.
  unfold label_email, try_except_HttpError, labels_list, bind, ret.
  rewrite execute_run.
  destruct (api_fault env (trace st) ReqLabels) as [e|];
    [now destruct e|].
  destruct (api_labels env (trace st)) as [labels|]; [|reflexivity].
  destruct (find_label_id labels label) as [labelID|]; [|reflexivity].
  destruct (str_truthy labelID); [|reflexivity].
  cbv zeta. unfold record_request.
  destruct (messages_modify env email_id [labelID] [] _) as [st2 [msg|e]];
    [reflexivity|]. now destruct e.
Qed.

Lemma process_email_run env email_id v st :
  email_id <> [] ->
  process_email env {| ref_id := Some email_id |} v st
  = match read_email env email_id st with
    | (st1, Raise e) => (st1, Raise e)
    | (st1, Ok (ReadError _)) => (st1, Ok v)
    | (st1, Ok (Metadata email_content)) =>
        match send_to_ollama env ollama_api_url email_content st1 with
        | (st2, Raise e) => (st2, Raise e)
        | (st2, Ok response) =>
            match py_get response (lit "message") (JBool false) with
            | Raise e => (st2, Raise e)
            | Ok message =>
                match py_get message (lit "content") (JBool false) with
                | Raise e => (st2, Raise e)
                | Ok label =>
                    if truthy label then
                      match label_email env email_id label st2 with
                      | (st3, Raise e) => (st3, Raise e)
                      | (st3, Ok label_response) =>
                          (st3,
                           Ok {| results :=
                                   results v ++
                                     [{| email_id := email_id;
                                         label := label;
                                         label_response := label_response;
                                         ollama_response := response |}];
                                 bound_label_response :=
                                   Some label_response |})
                      end
                    else
                      match bound_label_response v with
                      | None => (st2, Raise UnboundLocalError)
                      | Some label_response =>
                          (st2,
                           Ok {| results :=
                                   results v ++
                                     [{| email_id := email_id;
                                         label := label;
                                         label_response := label_response;
                                         ollama_response := response |}];
                                 bound_label_response :=
                                   Some label_response |})
                      end
                end
            end
        end
    end.
Proof.
  intros Hne. unfold process_email. cbn [ref_id].
  destruct email_id as [|c email_id]; [congruence|]. cbn [str_truthy negb].
  unfold bind at 1.
  destruct (read_email env (c :: email_id) st) as [st1 [[md|text]|e]];
    try reflexivity.
  unfold bind at 1.
  destruct (send_to_ollama env ollama_api_url md st1) as [st2 [response|e]];
    [|reflexivity].
  unfold bind at 1, lift at 1.
  destruct (py_get response (lit "message") (JBool false)) as [message|e];
    [|reflexivity].
  unfold bind at 1, lift at 1.
  destruct (py_get message (lit "content") (JBool false)) as [label|e];
    [|reflexivity].
  destruct (truthy label).
  - unfold bind, ret.
    destruct (label_email env (c :: email_id) label st2) as [st3 [lr|e]];
      reflexivity.
  - unfold bind, ret, raise.
    destruct (bound_label_response v); reflexivity.
Qed.

(** C7 on the code: the unread message is A, which lines 269-307 decode,
    and the endpoint answers with the name [Urgent], which no label of
    the account has.  Called with that name, [label_email] asks for the
    labels and nothing else, leaves the mailbox as it was, and returns
    the dump of the error dict, as the claim has it.  The run never
    calls it: [read_email] raises at line 264, and the run returns no
    outcome after the list request alone, so that no outcome records the
    error. *)
Theorem unknown_label_not_recorded :
  let env := Scenario.env_of [lit "A"] (Scenario.answers "Urgent") in
  let st := Scenario.state_of
              [(lit "A", Scenario.unread_message Scenario.raw_hello)] in
  decode_raw env Scenario.raw_hello = Ok Scenario.content_hello
  /\ find_label_id Scenario.labels (JStr (lit "Urgent")) = None
  /\ label_email env (lit "A") (JStr (lit "Urgent")) st
     = (record_request ReqLabels st,
        Ok (Scenario.dumps
              (JObj [(lit "error", JStr (lit "true"));
                     (lit "message",
                      JStr (lit "Label 'Urgent' not found."))])))
  /\ read_email env (lit "A") st = (st, Raise AttributeError)
  /\ process_and_label_emails env st = (record_request ReqList st, Ok []).
Proof. vm_compute. repeat split; reflexivity. Qed.

(** ** Reading a message *)

(** A turn of the loop about a message that has an id: the exception of
    line 264 leaves the turn, with the loop variables lost. *)
Lemma process_email_raises env email_id v st :
  str_truthy email_id = true ->
  process_email env {| ref_id := Some email_id |} v st
  = (st, Raise AttributeError).
Proof.
  intros Hid. unfold process_email. cbn [ref_id]. rewrite Hid. reflexivity.
Qed.


(** ** The oracle and the run *)

(** After a failed call the dict has no ["message"]: the first [get]
    gives its default [False], which has no [get]. *)
Lemma failed_call_has_no_message (text : str) :
  py_get (ollama_error text) (lit "message") (JBool false) = Ok (JBool false)
  /\ py_get (JBool false) (lit "content") (JBool false) = Raise AttributeError.
Proof. split; reflexivity. Qed.

(** [send_to_ollama] returns the dict of a failed call when the POST
    raises or its status is not 200; it never raises. *)
Lemma send_to_ollama_failure env api_url email_content st :
  call_fails (http_post env (trace st) api_url email_content) ->
  exists text,
    send_to_ollama env api_url email_content st
    = (record_request (ReqPost api_url email_content) st,
       Ok (ollama_error text)).
Proof.
  unfold send_to_ollama, call_fails, record_request.
  destruct (http_post env (trace st) api_url email_content)
    as [text|status body]; intros Hfail.
  - now exists text.
  - apply N.eqb_neq in Hfail. rewrite Hfail. now eexists.
Qed.

(** C1 on the code: the unread messages are C and D, which lines 269-307
    decode, and the endpoint answers 500.  Called with the dict of C,
    [send_to_ollama] returns its error dict, as the claim has it; the
    two [get]s of line 377 raise on that dict.  The run reaches neither:
    [read_email] raises at line 264, and the run returns no outcome
    after the list request alone, with C still unread. *)
Theorem oracle_failure_not_recorded :
  let env := Scenario.env_of [lit "C"; lit "D"] Scenario.status_500 in
  let st := Scenario.state_of
              [(lit "C", Scenario.unread_message Scenario.raw_hello);
               (lit "D", Scenario.unread_message Scenario.raw_hello)] in
  decode_raw env Scenario.raw_hello = Ok Scenario.content_hello
  /\ send_to_ollama env ollama_api_url Scenario.content_hello st
     = (record_request (ReqPost ollama_api_url Scenario.content_hello) st,
        Ok (ollama_error (lit "Status 500")))
  /\ py_get (ollama_error (lit "Status 500")) (lit "message") (JBool false)
     = Ok (JBool false)
  /\ py_get (JBool false) (lit "content") (JBool false) = Raise AttributeError
  /\ read_email env (lit "C") st = (st, Raise AttributeError)
  /\ process_and_label_emails env st = (record_request ReqList st, Ok []).
Proof. vm_compute. repeat split; reflexivity. Qed.

(** C2 on the code: one unread message A, which lines 269-307 decode,
    and an endpoint that answers [Review], the name of a label of the
    account.  [read_email] raises at line 264, and the run returns the
    empty list after the list request alone: no outcome for a message
    that decodes. *)
Theorem decodable_message_has_no_outcome :
  let env := Scenario.env_of [lit "A"] (Scenario.answers "Review") in
  let st := Scenario.state_of
              [(lit "A", Scenario.unread_message Scenario.raw_hello)] in
  let st1 := record_request ReqList st in
  api_unread env [] = Some [Scenario.ref "A"]
  /\ decode_raw env Scenario.raw_hello = Ok Scenario.content_hello
  /\ read_email env (lit "A") st1 = (st1, Raise AttributeError)
  /\ process_and_label_emails env st = (st1, Ok []).
Proof. vm_compute. repeat split; reflexivity. Qed.

Lemma send_to_ollama_returns env api_url email_content st :
  exists response,
    snd (send_to_ollama env api_url email_content st) = Ok response.
Proof. unfold send_to_ollama. cbn. now eexists. Qed.

Lemma read_email_raises env email_id st st' e :
  read_email env email_id st = (st', Raise e) -> is_HttpError e = false.
Proof. rewrite read_email_run. now intros [= <- <-]. Qed.

Lemma label_email_raises env email_id label st st' e :
  label_email env email_id label st = (st', Raise e) ->
  is_HttpError e = false.
Proof.
  rewrite label_email_run. cbv zeta.
  destruct (api_fault env (trace st) ReqLabels) as [e0|].
  - destruct e0; intros [= ]; subst; reflexivity.
  - destruct (api_labels env (trace st)) as [labels|]; [|discriminate].
    destruct (find_label_id labels label) as [labelID|]; [|discriminate].
    destruct (str_truthy labelID); [|discriminate].
    destruct (messages_modify env email_id [labelID] [] _) as [st2 [m|e2]];
      [discriminate|].
    destruct e2; intros [= ]; subst; reflexivity.
Qed.

(** C3, as amended.  The run returns a list and never raises.  What its
    body returns is returned as it is; when the body raises, the run
    returns the empty list.  An exception raised in a turn of the loop
    is not caught in the turn: it ends the loop.  Inside a turn an
    [HttpError] never leaves [read_email] or [label_email], and
    [send_to_ollama] never raises. *)
Theorem run_returns_list env st :
  (exists st' outcomes,
     process_and_label_emails env st = (st', Ok outcomes))
  /\ (forall st' outcomes,
        process_body env st = (st', Ok outcomes) ->
        process_and_label_emails env st = (st', Ok outcomes))
  /\ (forall st' e,
        process_body env st = (st', Raise e) ->
        process_and_label_emails env st = (st', Ok []))
  /\ (forall email rest v st0 st' e,
        process_email env email v st0 = (st', Raise e) ->
        process_loop env (email :: rest) v st0 = (st', Raise e))
  /\ (forall email_id label st0 st' e,
        read_email env email_id st0 = (st', Raise e)
        \/ label_email env email_id label st0 = (st', Raise e) ->
        is_HttpError e = false)
  /\ (forall api_url email_content st0,
        exists response,
          snd (send_to_ollama env api_url email_content st0) = Ok response).
Proof.
  unfold process_and_label_emails, try_except_Exception.
  split.
  { destruct (process_body env st) as [st' [l|e]]; eauto. }
  split; [now intros st' l ->|].
  split; [now intros st' e ->|].
  split.
  { intros email rest v st0 st' e He. cbn [process_loop]. unfold bind.
    now rewrite He. }
  split.
  { intros email_id lbl st0 st' e [H|H];
      eauto using read_email_raises, label_email_raises. }
  apply send_to_ollama_returns.
Qed.

Lemma run_returns_list_witness :
  let env := Scenario.list_times_out [lit "A"] (Scenario.answers "Review") in
  let st := Scenario.state_of
              [(lit "A", Scenario.unread_message Scenario.raw_hello)] in
  process_body env st = (record_request ReqList st, Raise Scenario.timed_out)
  /\ process_and_label_emails env st = (record_request ReqList st, Ok []).
Proof.
  intros env st.
  assert (Hbody :
    process_body env st
    = (record_request ReqList st, Raise Scenario.timed_out))
    by (vm_compute; reflexivity).
  split; [exact Hbody|].
  destruct (run_returns_list env st) as (_ & _ & Hraise & _).
  exact (Hraise _ _ Hbody).
Defined.

(** C3 as stated fails: the exception raised while A is processed is not
    caught at the message: it leaves the turn, the loop and the body of
    the [try], and it is the handler of the whole run that turns it into
    the empty list. *)
Lemma message_error_reaches_the_handler :
  let env := Scenario.env_of [lit "A"; lit "B"] (Scenario.answers "Review") in
  let st := Scenario.state_of
              [(lit "A", Scenario.unread_message Scenario.raw_hello);
               (lit "B", Scenario.unread_message Scenario.raw_hello)] in
  snd (process_email env (Scenario.ref "A") initial_vars
         (record_request ReqList st))
    = Raise AttributeError
  /\ snd (process_body env st) = Raise AttributeError
  /\ snd (process_body env st) <> Ok []
  /\ snd (process_and_label_emails env st) = Ok [].
Proof. vm_compute. repeat split; discriminate. Qed.

(** * Further properties of the service *)

(** ** Counting words *)

Lemma split_from_nil (s : str) : forall cur,
  split_from cur s = [] <-> cur = [] /\ Forall (fun c => isspace c = true) s.
Proof.
  induction s as [|c s IH]; intros cur; cbn [split_from].
  - destruct cur.
    + split; [intros _; split; [reflexivity|constructor] | reflexivity].
    + split; [discriminate | intros [? _]; discriminate].
  - destruct (isspace c) eqn:Hc.
    + destruct cur as [|d cur].
      * rewrite IH. split; intros [_ H].
        -- split; [reflexivity|now constructor].
        -- split; [reflexivity|now inversion H].
      * split; [discriminate | intros [? _]; discriminate].
    + rewrite IH. split; [intros [? _]; discriminate|].
      intros [_ H]. inversion H; congruence.
Qed.

(** X1.  [count_words] is zero exactly for a text made of whitespace only,
    the empty text included. *)
Theorem count_words_zero_iff_blank (text : str) :
  count_words text = 0 <-> Forall (fun c => isspace c = true) text.
Proof.
  rewrite count_words_split. unfold split.
  pose proof (split_from_nil text []) as H.
  destruct (split_from [] text) eqn:E.
  - split; [intros _; now apply H|reflexivity].
  - split; [cbn; lia|]. intros Hall.
    assert (l :: l0 = []) by (apply H; now split). discriminate.
Qed.

Lemma split_from_space (c : N) (b : str) : forall a cur,
  isspace c = true ->
  split_from cur (a ++ c :: b) = split_from cur a ++ split b.
Proof.
  intros a. induction a as [|x a IH]; intros cur Hc; cbn [app split_from].
  - rewrite Hc. now destruct cur.
  - destruct (isspace x).
    + destruct cur; [now apply IH|]. cbn [app]. f_equal. now apply IH.
    + now apply IH.
Qed.

(** X2.  Two texts put together with a whitespace character between them
    have the words of both: the counts add up. *)
Theorem count_words_across_space (a b : str) (c : N) :
  isspace c = true ->
  count_words (a ++ c :: b) = count_words a + count_words b.
Proof.
  intros Hc. rewrite !count_words_split. unfold split at 1.
  rewrite split_from_space by assumption.
  rewrite length_app. unfold split. lia.
Qed.

Lemma count_words_across_space_witness :
  isspace 10 = true
  /\ count_words (lit "dear all" ++ 10%N :: lit "see you  soon") = 2 + 3.
Proof.
  split; [reflexivity|].
  apply (count_words_across_space (lit "dear all") (lit "see you  soon") 10).
  reflexivity.
Defined.

Lemma join_nonempty (sep w : str) (ws : list str) :
  w <> [] -> join sep (w :: ws) <> [].
Proof.
  intros Hw. destruct ws; cbn [join]; [assumption|].
  destruct w; [congruence|discriminate].
Qed.

Lemma cap_words_bounded (body : str) :
  body <> [] ->
  cap_words body <> [] /\ count_words (cap_words body) <= 10000.
Proof.
  intros Hne. unfold cap_words.
  destruct (count_words body >? 10000) eqn:Hcap.
  - apply Z.gtb_lt in Hcap. rewrite count_words_split in Hcap.
    pose proof (split_words body) as Hwords.
    assert (Htake : Forall is_word (take (Z.to_nat 10000) (split body)))
      by now apply Forall_take.
    split.
    + destruct (split body) as [|w ws] eqn:E; [cbn in Hcap; lia|].
      assert (Hpos : (0 < Z.to_nat 10000)%nat) by lia.
      destruct (Z.to_nat 10000) as [|n]; [lia|]. cbn [take].
      apply join_nonempty. inversion Hwords as [|? ? [Hw _] _]; assumption.
    + rewrite count_words_split, split_join by assumption.
      rewrite length_take. lia.
  - split; [assumption|].
    destruct (Z.gtb_spec (count_words body) 10000); [discriminate|assumption].
Qed.

Lemma normalize_body_cap (body : option str) :
  exists text, text <> [] /\ normalize_body body = cap_words text.
Proof.
  destruct body as [[|c s]|].
  - exists (lit "THIS IS SPAM"). split; [discriminate|reflexivity].
  - exists (c :: s). split; [discriminate|reflexivity].
  - exists (lit "THIS IS SPAM"). split; [discriminate|reflexivity].
Qed.

(** X3.  Whatever the body, missing and empty included, the content is never
    the empty text and never has more than 10000 words. *)
Theorem content_nonempty_and_capped (body : option str) :
  normalize_body body <> []
  /\ 0 <= count_words (normalize_body body) <= 10000.
Proof.
  assert (Hpos : forall s, 0 <= count_words s)
    by (intros s; rewrite count_words_split; lia).
  assert (Hsentinel :
    cap_words (lit "THIS IS SPAM") <> []
    /\ count_words (cap_words (lit "THIS IS SPAM")) <= 10000)
    by (apply cap_words_bounded; discriminate).
  unfold normalize_body.
  destruct body as [[|c s]|]; cbn [str_truthy];
    try (split; [apply Hsentinel | split; [apply Hpos | apply Hsentinel]]).
  destruct (cap_words_bounded (c :: s)) as [Hne Hle]; [discriminate|].
  split; [exact Hne | split; [apply Hpos | exact Hle]].
Qed.

(** X4.  The content is a fixed point of the normalisation: a content given
    back as a body comes out unchanged. *)
Theorem normalize_body_idempotent (body : option str) :
  normalize_body (Some (normalize_body body)) = normalize_body body.
Proof.
  destruct (normalize_body_cap body) as (text & Htext & Hcap).
  destruct (cap_words_bounded text Htext) as (Hne & Hle).
  rewrite <- Hcap in Hne, Hle.
  rewrite normalize_body_nonempty by assumption.
  unfold cap_words.
  destruct (Z.gtb_spec (count_words (normalize_body body)) 10000);
    [lia|reflexivity].
Qed.

(** ** What the requests do to the mailbox *)

Lemma keeps_message_refl m : keeps_message m m.
Proof. repeat split; auto. Qed.

Lemma evolves_refl mb : evolves mb mb.
Proof. intros id. destruct (mb !! id); [apply keeps_message_refl|exact I]. Qed.

Lemma evolves_trans mb1 mb2 mb3 :
  evolves mb1 mb2 -> evolves mb2 mb3 -> evolves mb1 mb3.
Proof.
  intros H12 H23 id. specialize (H12 id). specialize (H23 id).
  destruct (mb1 !! id) as [m1|], (mb2 !! id) as [m2|], (mb3 !! id) as [m3|];
    try easy.
  destruct H12 as (Hr1 & Ht1 & Hl1), H23 as (Hr2 & Ht2 & Hl2).
  repeat split; [congruence|congruence|auto].
Qed.

Lemma effect_refl id st : effect id st st [].
Proof.
  split; [now rewrite app_nil_r|]. split; [apply evolves_refl|reflexivity].
Qed.

Lemma effect_trans id st1 st2 st3 made12 made23 :
  effect id st1 st2 made12 -> effect id st2 st3 made23 ->
  effect id st1 st3 (made12 ++ made23).
Proof.
  intros (Ht1 & He1 & Ho1) (Ht2 & He2 & Ho2).
  split; [now rewrite Ht2, Ht1, app_assoc|].
  split; [eapply evolves_trans; eassumption|].
  intros other Hne. now rewrite Ho2, Ho1.
Qed.

Lemma effect_record id rq st : effect id st (record_request rq st) [rq].
Proof.
  split; [reflexivity|]. split; [apply evolves_refl|reflexivity].
Qed.

Lemma elem_of_modified_labels (labels add remove : list str) (l : list N) :
  l ∈ labels -> l ∉ remove -> l ∈ modified_labels labels add remove.
Proof.
  intros Hin Hout. unfold modified_labels.
  apply elem_of_app. left. now apply list_elem_of_filter.
Qed.

Lemma evolves_insert mb id m m' :
  mb !! id = Some m -> keeps_message m m' -> evolves mb (<[id := m']> mb).
Proof.
  intros Hm Hkeep other. destruct (decide (other = id)) as [->|Hne].
  - now rewrite Hm, lookup_insert_eq.
  - rewrite lookup_insert_ne by congruence.
    destruct (mb !! other); [apply keeps_message_refl|exact I].
Qed.

Lemma messages_modify_effect env id add remove st :
  remove = [] \/ remove = [lit "UNREAD"] ->
  effect id st (fst (messages_modify env id add remove st))
    [ReqModify id add remove].
Proof.
  intros Hremove. rewrite messages_modify_run. cbv zeta.
  destruct (api_fault env (trace st) _); [apply effect_record|].
  destruct (mailbox st !! id) as [m|] eqn:Hm; [|apply effect_record].
  split; [reflexivity|]. cbn [fst mailbox]. split.
  - apply (evolves_insert _ _ m); [assumption|].
    repeat split. intros l Hin Hne.
    apply elem_of_modified_labels; [assumption|].
    destruct Hremove as [->| ->]; [apply not_elem_of_nil|].
    now rewrite list_elem_of_singleton.
  - intros other Hne. now rewrite lookup_insert_ne by congruence.
Qed.

Lemma mark_email_as_read_effect env id st :
  effect id st (fst (mark_email_as_read env id st))
    [ReqModify id [] [lit "UNREAD"]].
Proof.
  pose proof (messages_modify_effect env id [] [lit "UNREAD"] st
                (or_intror eq_refl)) as H.
  unfold mark_email_as_read, try_except_HttpError, bind, ret.
  destruct (messages_modify env id [] [lit "UNREAD"] st) as [st1 [m|e]];
    [exact H|]. now destruct e.
Qed.

Lemma label_email_effect env id label st :
  exists made,
    effect id st (fst (label_email env id label st)) made
    /\ (made = [ReqLabels]
        \/ exists labelID, made = [ReqLabels; ReqModify id [labelID] []]).
Proof.
  rewrite label_email_run. cbv zeta.
  assert (Hlist : exists made,
            effect id st (record_request ReqLabels st) made
            /\ (made = [ReqLabels]
                \/ exists labelID,
                     made = [ReqLabels; ReqModify id [labelID] []])).
  { exists [ReqLabels]. split; [apply effect_record|now left]. }
  destruct (api_fault env (trace st) ReqLabels) as [e|];
    [now destruct e|].
  destruct (api_labels env (trace st)) as [labels|]; [|exact Hlist].
  destruct (find_label_id labels label) as [labelID|]; [|exact Hlist].
  destruct (str_truthy labelID); [|exact Hlist].
  pose proof (messages_modify_effect env id [labelID] []
                (record_request ReqLabels st) (or_introl eq_refl)) as Hmod.
  exists [ReqLabels; ReqModify id [labelID] []].
  split; [|right; now exists labelID].
  apply (effect_trans id st (record_request ReqLabels st) _
           [ReqLabels] [ReqModify id [labelID] []]);
    [apply effect_record|].
  destruct (messages_modify env id [labelID] [] _) as [st2 [m|e]];
    [exact Hmod|]. now destruct e.
Qed.

Lemma read_email_effect env id st :
  effect id st (fst (read_email env id st)) []
  /\ forall md, snd (read_email env id st) <> Ok (Metadata md).
Proof.
  rewrite read_email_run. split; [apply effect_refl|discriminate].
Qed.

Lemma send_to_ollama_effect env id api_url email_content st :
  effect id st (fst (send_to_ollama env api_url email_content st))
    [ReqPost api_url email_content].
Proof. apply (effect_record id (ReqPost api_url email_content) st). Qed.

Lemma process_email_effect env email v st :
  match ref_id email with
  | None => fst (process_email env email v st) = st
  | Some id =>
      exists made email_content labelID,
        effect id st (fst (process_email env email v st)) made
        /\ made `prefix_of` turn_requests id email_content labelID
  end.
Proof.
  destruct email as [[id|]]; cbn [ref_id]; [|reflexivity].
  pose (nothing := {| md_content := []; md_subject := []; md_from := [];
                      md_to := []; md_date := [] |}).
  exists [], nothing, []. split; [|apply prefix_nil].
  destruct id as [|c id]; [apply effect_refl|].
  rewrite process_email_run by discriminate.
  destruct (read_email_effect env (c :: id) st) as [Hread Hnot].
  destruct (read_email env (c :: id) st) as [st1 [[md|text]|e]];
    cbn [fst snd] in *; [now destruct (Hnot md)|exact Hread|exact Hread].
Qed.

(** ** The order of the requests of a turn *)

(** X5.  A turn of the loop about the message [id] makes its requests in one
    order: get, modify removing UNREAD, POST to the endpoint, labels,
    modify adding one label; it may stop after any of them, and it
    touches no message other than [id]. *)
Theorem turn_requests_in_order env id v st :
  exists made email_content labelID,
    made `prefix_of` turn_requests id email_content labelID
    /\ trace (fst (process_email env {| ref_id := Some id |} v st))
       = trace st ++ made
    /\ forall other, other <> id ->
         mailbox (fst (process_email env {| ref_id := Some id |} v st))
           !! other
         = mailbox st !! other.
Proof.
  pose proof (process_email_effect env {| ref_id := Some id |} v st) as H.
  cbn [ref_id] in H.
  destruct H as (made & md & lid & (Htrace & _ & Hother) & Hprefix).
  exists made, md, lid. auto.
Qed.

(** ** The run as a whole *)

Lemma get_unread_emails_run env st :
  get_unread_emails env st
  = (record_request ReqList st,
     match api_fault env (trace st) ReqList with
     | Some (HttpError text) =>
         Ok (UnreadError (lit "An HttpError occurred: " ++ text))
     | Some e => Raise e
     | None =>
         Ok (UnreadList
               match api_unread env (trace st) with
               | Some l => l
               | None => []
               end)
     end).
Proof.
  unfold get_unread_emails, try_except_HttpError, messages_list, bind, ret.
  rewrite execute_run.
  destruct (api_fault env (trace st) ReqList) as [e|]; [now destruct e|].
  reflexivity.
Qed.

Lemma process_body_run env st :
  process_body env st
  = match api_fault env (trace st) ReqList with
    | Some (HttpError text) =>
        (record_request ReqList st, Raise AttributeError)
    | Some e => (record_request ReqList st, Raise e)
    | None =>
        match api_unread env (trace st) with
        | Some (email :: rest) =>
            process_loop env (email :: rest) initial_vars
              (record_request ReqList st)
        | _ => (record_request ReqList st, Ok [])
        end
    end.
Proof.
  unfold process_body, bind. rewrite get_unread_emails_run.
  destruct (api_fault env (trace st) ReqList) as [e|]; [now destruct e|].
  now destruct (api_unread env (trace st)) as [[|email rest]|].
Qed.

(** X7.  With nothing to process the run is over after one request.  When
    the list request raises, or the response has no messages, the run
    returns the empty list having made the list request only: nothing is
    fetched, the endpoint is not called, the mailbox is as before. *)
Theorem nothing_unread_nothing_done env st :
  api_fault env (trace st) ReqList <> None
  \/ api_unread env (trace st) = None
  \/ api_unread env (trace st) = Some [] ->
  process_and_label_emails env st = (record_request ReqList st, Ok []).
Proof.
  intros Hcase.
  unfold process_and_label_emails, try_except_Exception, ret.
  rewrite process_body_run.
  destruct (api_fault env (trace st) ReqList) as [e|]; [now destruct e|].
  destruct Hcase as [Hcase|[-> | ->]]; [congruence|reflexivity|reflexivity].
Qed.

Lemma nothing_unread_nothing_done_witness :
  let env := Scenario.env_of [] (Scenario.answers "Review") in
  let st := Scenario.state_of
              [(lit "A", Scenario.unread_message Scenario.raw_hello)] in
  process_and_label_emails env st = (record_request ReqList st, Ok [])
  /\ trace (fst (process_and_label_emails env st)) = [ReqList].
Proof.
  intros env st.
  assert (H : process_and_label_emails env st
              = (record_request ReqList st, Ok [])).
  { apply nothing_unread_nothing_done. right. right. reflexivity. }
  split; [exact H|]. now rewrite H.
Defined.

Lemma prefix_Forall {A} (P : A -> Prop) (l1 l2 : list A) :
  l1 `prefix_of` l2 -> Forall P l2 -> Forall P l1.
Proof. intros [k ->] H. now apply Forall_app in H. Qed.

Lemma turn_requests_allowed ids id email_content labelID :
  id ∈ ids ->
  Forall (run_request ids) (turn_requests id email_content labelID).
Proof.
  intros Hin. unfold turn_requests.
  apply Forall_cons_2; [exact Hin|].
  apply Forall_cons_2; [split; [exact Hin|now left]|].
  apply Forall_cons_2; [reflexivity|].
  apply Forall_cons_2; [exact I|].
  apply Forall_cons_2; [|constructor].
  split; [exact Hin|]. right. now exists labelID.
Qed.

Lemma process_loop_effect env ids : forall unread_emails v st,
  (forall id, id ∈ listed_ids unread_emails -> id ∈ ids) ->
  let st' := fst (process_loop env unread_emails v st) in
  exists made,
    trace st' = trace st ++ made
    /\ Forall (run_request ids) made
    /\ evolves (mailbox st) (mailbox st')
    /\ forall other, other ∉ ids -> mailbox st' !! other = mailbox st !! other.
Proof.
  induction unread_emails as [|email rest IH]; intros v st Hids; cbv zeta.
  - exists []. cbn. rewrite app_nil_r.
    split; [reflexivity|]. split; [constructor|].
    split; [apply evolves_refl|reflexivity].
  - cbn [process_loop]. unfold bind.
    pose proof (process_email_effect env email v st) as Hturn.
    assert (Hrest : forall id, id ∈ listed_ids rest -> id ∈ ids).
    { intros id Hin. apply Hids. unfold listed_ids in *. simpl.
      destruct (ref_id email); [now apply list_elem_of_further|assumption]. }
    assert (Hone :
      exists made1,
        trace (fst (process_email env email v st)) = trace st ++ made1
        /\ Forall (run_request ids) made1
        /\ evolves (mailbox st) (mailbox (fst (process_email env email v st)))
        /\ forall other, other ∉ ids ->
             mailbox (fst (process_email env email v st)) !! other
             = mailbox st !! other).
    { destruct (ref_id email) as [id|] eqn:Hid.
      - destruct Hturn as (made1 & md & lid & (Ht & He & Ho) & Hprefix).
        assert (Hin : id ∈ ids).
        { apply Hids. unfold listed_ids. simpl. rewrite Hid.
          apply list_elem_of_here. }
        exists made1. split; [exact Ht|].
        split; [eapply prefix_Forall;
                [exact Hprefix|now apply turn_requests_allowed]|].
        split; [exact He|].
        intros other Hout. apply Ho. intros ->. contradiction.
      - rewrite Hturn. exists []. rewrite app_nil_r.
        split; [reflexivity|]. split; [constructor|].
        split; [apply evolves_refl|reflexivity]. }
    destruct (process_email env email v st) as [st1 [v1|e]]; cbn [fst] in *.
    + destruct Hone as (made1 & Ht1 & Hf1 & He1 & Ho1).
      destruct (IH v1 st1 Hrest) as (made2 & Ht2 & Hf2 & He2 & Ho2).
      exists (made1 ++ made2).
      split; [now rewrite Ht2, Ht1, app_assoc|].
      split; [now apply Forall_app|].
      split; [eapply evolves_trans; eassumption|].
      intros other Hout. now rewrite Ho2, Ho1.
    + exact Hone.
Qed.

Lemma run_effect env st :
  let st' := fst (process_and_label_emails env st) in
  let ids :=
    listed_ids match api_unread env (trace st) with
               | Some l => l
               | None => []
               end in
  exists made,
    trace st' = trace st ++ ReqList :: made
    /\ Forall (run_request ids) made
    /\ evolves (mailbox st) (mailbox st')
    /\ forall other, other ∉ ids -> mailbox st' !! other = mailbox st !! other.
Proof.
  cbv zeta.
  assert (Hfst : fst (process_and_label_emails env st)
                 = fst (process_body env st)).
  { unfold process_and_label_emails, try_except_Exception, ret.
    now destruct (process_body env st) as [st1 [l|e]]. }
  rewrite Hfst, process_body_run.
  assert (Hnone :
    exists made,
      trace (record_request ReqList st) = trace st ++ ReqList :: made
      /\ Forall
           (run_request
              (listed_ids match api_unread env (trace st) with
                          | Some l => l
                          | None => []
                          end)) made
      /\ evolves (mailbox st) (mailbox (record_request ReqList st))
      /\ forall other : list N,
           other ∉ listed_ids match api_unread env (trace st) with
                              | Some l => l
                              | None => []
                              end ->
           mailbox (record_request ReqList st) !! other
           = mailbox st !! other).
  { exists []. split; [reflexivity|]. split; [constructor|].
    split; [apply evolves_refl|reflexivity]. }
  destruct (api_fault env (trace st) ReqList) as [e|]; [now destruct e|].
  destruct (api_unread env (trace st)) as [[|email rest]|];
    [exact Hnone| |exact Hnone].
  destruct (process_loop_effect env (listed_ids (email :: rest))
              (email :: rest) initial_vars (record_request ReqList st))
    as (made & Ht & Hf & He & Ho); [auto|].
  exists made. split; [rewrite Ht; cbn; now rewrite <- app_assoc|].
  split; [exact Hf|]. split; [exact He|exact Ho].
Qed.

(** X8.  What a run never does.  It lists the unread messages once, first;
    every later get or modify is about a listed id; a modify either
    removes UNREAD and adds nothing, or adds one label and removes
    nothing; every POST goes to the one endpoint. *)
Theorem run_makes_only_these_requests env st :
  let ids :=
    listed_ids match api_unread env (trace st) with
               | Some l => l
               | None => []
               end in
  exists made,
    trace (fst (process_and_label_emails env st))
    = trace st ++ ReqList :: made
    /\ Forall (run_request ids) made.
Proof.
  destruct (run_effect env st) as (made & Ht & Hf & _).
  exists made. split; assumption.
Qed.

(** X9.  What a run keeps.  Every message of the mailbox is still there
    with its content, its thread and each label it had other than
    UNREAD; no message appears; a message that was not listed as unread
    is exactly as it was. *)
Theorem run_preserves_mailbox env st :
  let st' := fst (process_and_label_emails env st) in
  let ids :=
    listed_ids match api_unread env (trace st) with
               | Some l => l
               | None => []
               end in
  evolves (mailbox st) (mailbox st')
  /\ forall other, other ∉ ids -> mailbox st' !! other = mailbox st !! other.
Proof.
  destruct (run_effect env st) as (made & _ & _ & He & Ho).
  split; assumption.
Qed.

Lemma process_email_outcome env email v st st' v' :
  process_email env email v st = (st', Ok v') ->
  results v' = results v
  \/ exists outcome,
       results v' = results v ++ [outcome]
       /\ ref_id email = Some (email_id outcome).
Proof.
  destruct email as [[id|]]; [|intros [= <- <-]; now left].
  destruct id as [|c id]; [intros [= <- <-]; now left|].
  rewrite process_email_run by discriminate.
  destruct (read_email env _ st) as [st1 [[md|text]|e]];
    [|intros [= <- <-]; now left|discriminate].
  destruct (send_to_ollama env _ md st1) as [st2 [response|e]];
    [|discriminate].
  destruct (py_get response _ _) as [message|e]; [|discriminate].
  destruct (py_get message _ _) as [lbl|e]; [|discriminate].
  destruct (truthy lbl).
  - destruct (label_email env _ lbl st2) as [st3 [lr|e]]; [|discriminate].
    intros [= <- <-]. right. eexists. split; reflexivity.
  - destruct (bound_label_response v) as [lr|]; [|discriminate].
    intros [= <- <-]. right. eexists. split; reflexivity.
Qed.

Lemma process_loop_ids env unread_emails : forall v st st' outcomes,
  process_loop env unread_emails v st = (st', Ok outcomes) ->
  exists new,
    outcomes = results v ++ new
    /\ (email_id <$> new) `sublist_of` listed_ids unread_emails.
Proof.
  induction unread_emails as [|email rest IH]; intros v st st' outcomes.
  - intros [= <- <-]. exists []. now rewrite app_nil_r.
  - cbn [process_loop]. unfold bind at 1.
    destruct (process_email env email v st) as [st1 [v1|e]] eqn:Hturn;
      [|discriminate].
    intros Hrest. apply IH in Hrest as (new & -> & Hsub).
    unfold listed_ids in *. simpl.
    apply process_email_outcome in Hturn as [Hv|(outcome & Hv & Hid)];
      rewrite Hv.
    + exists new. split; [reflexivity|].
      destruct (ref_id email); [now apply sublist_cons|assumption].
    + exists (outcome :: new). rewrite <- app_assoc. split; [reflexivity|].
      rewrite Hid. cbn. now apply sublist_skip.
Qed.

(** X10.  The outcomes a run returns are about listed messages only, and come
    in the order of the list: their ids are the listed ids with some
    left out. *)
Theorem outcomes_follow_the_list env st :
  exists outcomes,
    snd (process_and_label_emails env st) = Ok outcomes
    /\ (email_id <$> outcomes)
       `sublist_of` listed_ids match api_unread env (trace st) with
                               | Some l => l
                               | None => []
                               end.
Proof.
  unfold process_and_label_emails, try_except_Exception, ret.
  rewrite process_body_run.
  assert (Hnone : forall ids : list str,
            (email_id <$> @nil TriageOutcome) `sublist_of` ids)
    by (intros ids; apply sublist_nil_l).
  destruct (api_fault env (trace st) ReqList) as [e|].
  { exists []. split; [now destruct e|apply Hnone]. }
  destruct (api_unread env (trace st)) as [[|email rest]|];
    [exists []; split; [reflexivity|apply Hnone]|
    |exists []; split; [reflexivity|apply Hnone]].
  destruct (process_loop env (email :: rest) initial_vars _)
    as [st1 [outcomes|e]] eqn:Hloop.
  - apply process_loop_ids in Hloop as (new & -> & Hsub).
    exists new. split; [reflexivity|exact Hsub].
  - exists []. split; [reflexivity|apply Hnone].
Qed.

(** ** Marking and labelling again *)

Lemma filter_twice {A} (P : A -> Prop) `{forall x, Decision (P x)}
    (l : list A) :
  filter P (filter P l) = filter P l.
Proof.
  induction l as [|x l IH]; [reflexivity|].
  rewrite filter_cons. destruct (decide (P x)) as [Hx|Hx];
    [|assumption].
  rewrite filter_cons. destruct (decide (P x)); [now f_equal|contradiction].
Qed.

(** X11.  Once a message has been marked read, marking it again changes
    nothing: after a call that returned its confirmation, the message
    has no label UNREAD, and a second call leaves the mailbox as it is
    whatever the client answers. *)
Theorem mark_email_as_read_twice env email_id st :
  snd (mark_email_as_read env email_id st) = Ok (lit "Email marked as read.") ->
  let st1 := fst (mark_email_as_read env email_id st) in
  (exists m1, mailbox st1 !! email_id = Some m1
              /\ lit "UNREAD" ∉ msg_labelIds m1)
  /\ mailbox (fst (mark_email_as_read env email_id st1)) = mailbox st1.
Proof.
  rewrite (mark_email_as_read_run env email_id st). cbv zeta.
  destruct (api_fault env (trace st) _) as [e|].
  { destruct e; cbn; discriminate. }
  destruct (mailbox st !! email_id) as [m|] eqn:Hm; [|cbn; discriminate].
  intros _. cbn [fst].
  set (m1 := relabelled m
               (filter (fun l => l <> lit "UNREAD") (msg_labelIds m))).
  set (st1 := {| mailbox := <[email_id := m1]> (mailbox st);
                 trace := trace (record_request
                                   (ReqModify email_id [] [lit "UNREAD"]) st)
              |}).
  split.
  - exists m1. split; [apply lookup_insert_eq|].
    cbn. intros Hin. apply list_elem_of_filter in Hin. now destruct Hin.
  - rewrite (mark_email_as_read_run env email_id st1). cbv zeta.
    destruct (api_fault env (trace st1) _) as [e|]; [now destruct e|].
    cbn [mailbox st1]. rewrite lookup_insert_eq. cbn [fst mailbox].
    rewrite insert_insert_eq. f_equal.
    unfold relabelled, m1. cbn. now rewrite filter_twice.
Qed.

Lemma mark_email_as_read_twice_witness :
  let env := Scenario.env_of [lit "A"] (Scenario.answers "Review") in
  let st := Scenario.state_of
              [(lit "A", Scenario.unread_message Scenario.raw_hello)] in
  let st1 := fst (mark_email_as_read env (lit "A") st) in
  snd (mark_email_as_read env (lit "A") st) = Ok (lit "Email marked as read.")
  /\ mailbox (fst (mark_email_as_read env (lit "A") st1)) = mailbox st1.
Proof.
  intros env st st1.
  assert (H : snd (mark_email_as_read env (lit "A") st)
              = Ok (lit "Email marked as read."))
    by (vm_compute; reflexivity).
  split; [exact H|].
  exact (proj2 (mark_email_as_read_twice env (lit "A") st H)).
Defined.

Lemma filter_all {A} (P : A -> Prop) `{forall x, Decision (P x)}
    (l : list A) :
  Forall P l -> filter P l = l.
Proof.
  induction 1 as [|x l Hx _ IH]; [reflexivity|].
  rewrite filter_cons. destruct (decide (P x)); [now f_equal|contradiction].
Qed.

Lemma adding_one_label (labels : list str) (labelID : str) :
  modified_labels labels [labelID] []
  = if decide (labelID ∈ labels) then labels else labels ++ [labelID].
Proof.
  unfold modified_labels.
  rewrite (filter_all (fun l => l ∉ [])).
  2: { apply Forall_forall. intros l _. apply not_elem_of_nil. }
  rewrite filter_cons, filter_nil.
  destruct (decide (labelID ∈ labels)) as [Hin|Hout].
  - rewrite decide_False by tauto. apply app_nil_r.
  - now rewrite decide_True by assumption.
Qed.

(** X12.  Applying a label that resolves.  When the labels request and the
    modify are answered and the message exists, [label_email] makes the
    two requests, returns the message dumped as JSON, and the message
    gains the id of the first label of that name and loses nothing; a
    message that has the label already is left exactly as it was. *)
Theorem label_email_applies env email_id label st labels labelID m :
  api_fault env (trace st) ReqLabels = None ->
  api_labels env (trace st) = Some labels ->
  find_label_id labels label = Some labelID ->
  labelID <> [] ->
  api_fault env (trace st ++ [ReqLabels]) (ReqModify email_id [labelID] [])
  = None ->
  mailbox st !! email_id = Some m ->
  let st' := fst (label_email env email_id label st) in
  let m' :=
    relabelled m
      (if decide (labelID ∈ msg_labelIds m) then msg_labelIds m
       else msg_labelIds m ++ [labelID]) in
  snd (label_email env email_id label st)
  = Ok (json_dumps env (message_resource email_id m'))
  /\ trace st' = trace st ++ [ReqLabels; ReqModify email_id [labelID] []]
  /\ mailbox st' = <[email_id := m']> (mailbox st)
  /\ (labelID ∈ msg_labelIds m -> mailbox st' = mailbox st).
Proof.
  intros Hfault Hlabels Hfind Hne Hfault2 Hm. cbv zeta.
  rewrite label_email_run. cbv zeta.
  rewrite Hfault, Hlabels, Hfind.
  destruct labelID as [|c labelID]; [congruence|]. cbn [str_truthy].
  rewrite messages_modify_run. cbv zeta.
  cbn [record_request trace mailbox]. rewrite Hfault2, Hm.
  rewrite adding_one_label. cbn [fst snd trace mailbox].
  split; [reflexivity|]. split; [now rewrite <- app_assoc|].
  split; [reflexivity|].
  intros Hin. rewrite decide_True by assumption.
  apply insert_id. rewrite Hm. now destruct m.
Qed.

Lemma label_email_applies_witness :
  let env := Scenario.env_of [lit "A"] (Scenario.answers "Review") in
  let st := Scenario.state_of
              [(lit "A", Scenario.unread_message Scenario.raw_hello)] in
  let st' := fst (label_email env (lit "A") (JStr (lit "Ads")) st) in
  msg_labelIds <$> mailbox st' !! lit "A"
  = Some [lit "INBOX"; lit "UNREAD"; lit "Label_2"].
Proof.
  intros env st st'.
  assert (Hid : lit "Label_2" <> []) by discriminate.
  pose proof (label_email_applies env (lit "A") (JStr (lit "Ads")) st
                Scenario.labels (lit "Label_2")
                (Scenario.unread_message Scenario.raw_hello)
                eq_refl eq_refl eq_refl Hid eq_refl eq_refl)
    as (_ & _ & Hmailbox & _).
  subst st'. rewrite Hmailbox, lookup_insert_eq. reflexivity.
Defined.

(** ** The tools *)

Import Tools.

Lemma split_on_cons (sep : N) (s : str) :
  exists piece pieces, split_on sep s = piece :: pieces.
Proof.
  destruct s as [|c s]; cbn [split_on]; [now eexists _, _|].
  destruct (c =? sep)%N; [now eexists _, _|].
  destruct (split_on sep s); now eexists _, _.
Qed.

Lemma split_on_piece (sep : N) (w : str) :
  sep ∉ w ->
  split_on sep w = [w]
  /\ forall s, split_on sep (w ++ sep :: s) = w :: split_on sep s.
Proof.
  induction w as [|c w IH]; intros Hout.
  - split; [reflexivity|]. intros s. cbn. now rewrite N.eqb_refl.
  - assert (Hc : (c =? sep)%N = false).
    { apply N.eqb_neq. intros ->. apply Hout. apply list_elem_of_here. }
    destruct IH as [IH1 IH2].
    { intros Hin. apply Hout. now apply list_elem_of_further. }
    split; [|intros s]; cbn [app split_on]; rewrite Hc;
      [now rewrite IH1 | now rewrite IH2].
Qed.

(** Splitting on a separator and joining with it gives the text back. *)
Lemma join_split_on (sep : N) (s : str) : join [sep] (split_on sep s) = s.
Proof.
  induction s as [|c s IH]; [reflexivity|]. cbn [split_on].
  destruct (split_on_cons sep s) as (piece & pieces & Hs).
  rewrite Hs in *. destruct (N.eqb_spec c sep) as [->|Hne].
  - rewrite join_cons, IH. reflexivity.
  - destruct pieces as [|piece' pieces].
    + cbn [join] in *. now rewrite IH.
    + rewrite join_cons. rewrite join_cons in IH. now rewrite <- IH.
Qed.

Lemma startswith_first_line (prefix : str) : forall s,
  10%N ∉ prefix ->
  startswith (hd [] (split_on 10 s)) prefix = startswith s prefix.
Proof.
  induction prefix as [|p prefix IH]; intros s Hout.
  - now destruct (hd [] (split_on 10 s)), s.
  - assert (Hp : p <> 10%N).
    { intros ->. apply Hout. apply list_elem_of_here. }
    assert (Hrest : 10%N ∉ prefix).
    { intros Hin. apply Hout. now apply list_elem_of_further. }
    destruct s as [|c s]; [reflexivity|]. cbn [split_on].
    destruct (N.eqb_spec c 10) as [->|Hc].
    + cbn [hd startswith].
      assert ((10 =? p)%N = false) as -> by (apply N.eqb_neq; congruence).
      reflexivity.
    + destruct (split_on_cons 10 s) as (piece & pieces & Hs).
      specialize (IH s Hrest). rewrite Hs in *.
      cbn [hd startswith] in *. now rewrite IH.
Qed.

Lemma startswith_app (prefix s : str) : startswith (prefix ++ s) prefix = true.
Proof.
  induction prefix as [|p prefix IH]; [now destruct s|].
  cbn. now rewrite N.eqb_refl.
Qed.

(** X13.  The subject line of a message to send.  A message that does not
    start with [Subject:] is sent as it is under the subject given.  A
    message that does is sent under the rest of its first line, and its
    content is what follows the first line, both without the whitespace
    at their ends; the subject given is not used. *)
Theorem subject_line_is_parsed (subject message : str) :
  (startswith message (lit "Subject:") = false ->
   subject_and_content subject message = Some (subject, message))
  /\ (forall line rest,
        10%N ∉ line ->
        message = lit "Subject:" ++ line ++ 10%N :: rest ->
        subject_and_content subject message = Some (strip line, strip rest))
  /\ (forall line,
        10%N ∉ line ->
        message = lit "Subject:" ++ line ->
        subject_and_content subject message = Some (strip line, [])).
Proof.
  assert (Hprefix : 10%N ∉ lit "Subject:")
    by (apply (bool_decide_unpack _); vm_compute; exact I).
  assert (Hline : forall line, 10%N ∉ line -> 10%N ∉ lit "Subject:" ++ line).
  { intros line Hout Hin. apply elem_of_app in Hin as [Hin|Hin]; tauto. }
  unfold subject_and_content. cbv zeta.
  split; [|split].
  - intros Hno.
    pose proof (startswith_first_line (lit "Subject:") message Hprefix) as H.
    destruct (split_on_cons 10 message) as (piece & pieces & Hs).
    rewrite Hs in *. cbn [hd] in H. now rewrite H, Hno.
  - intros line rest Hout ->.
    destruct (split_on_piece 10 (lit "Subject:" ++ line) (Hline line Hout))
      as [_ Hsplit].
    rewrite app_assoc, Hsplit, startswith_app, join_split_on.
    now rewrite drop_app_length' by reflexivity.
  - intros line Hout ->.
    destruct (split_on_piece 10 (lit "Subject:" ++ line) (Hline line Hout))
      as [Hsplit _].
    rewrite Hsplit, startswith_app.
    now rewrite drop_app_length' by reflexivity.
Qed.

Lemma subject_line_is_parsed_witness :
  subject_and_content (lit "ignored")
    (lit "Subject: Lunch " ++ 10%N :: 10%N :: lit "At noon?" ++ [10%N])
  = Some (lit "Lunch", lit "At noon?").
Proof.
  destruct (subject_line_is_parsed (lit "ignored")
              (lit "Subject: Lunch " ++ 10%N :: 10%N :: lit "At noon?"
               ++ [10%N])) as (_ & Hparsed & _).
  refine (Hparsed (lit " Lunch ") (10%N :: lit "At noon?" ++ [10%N]) _ _).
  - apply (bool_decide_unpack _); vm_compute; exact I.
  - reflexivity.
Defined.

Ltac decided := apply (bool_decide_unpack _); vm_compute; exact I.

Lemma required_missing arguments key missing ts :
  assoc key arguments = None \/ assoc key arguments = Some [] ->
  required (Some arguments) key missing ts
  = (ts, Failed (ValueError (lit missing))).
Proof.
  unfold required, argument, tbind, done, fail. now intros [-> | ->].
Qed.

Lemma required_present arguments key missing ts value :
  assoc key arguments = Some value -> value <> [] ->
  required (Some arguments) key missing ts = (ts, Done value).
Proof.
  unfold required, argument, tbind, done, fail. intros -> Hne.
  now destruct value.
Qed.

(** X14.  Calls that are refused, and change nothing.  A name that is not one
    of the seven tools raises [ValueError] with the name.  A tool that
    needs [email_id] raises [ValueError] when the argument is missing or
    empty; send-email raises it for a missing subject, whatever the
    message.  Every tool but get-unread-emails raises [AttributeError]
    when there are no arguments at all.  In each case no request has
    been made. *)
Theorem refused_calls_do_nothing tenv name ts :
  (name ∉ [lit "label-email"; lit "send-email"; lit "get-unread-emails";
           lit "read-email"; lit "open-email"; lit "trash-email";
           lit "mark-email-as-read"] ->
   forall arguments,
     handle_call_tool tenv name arguments ts
     = (ts, Failed (ValueError (lit "Unknown tool: " ++ name))))
  /\ (name ∈ [lit "read-email"; lit "open-email"; lit "trash-email";
              lit "mark-email-as-read"] ->
      forall arguments,
        assoc (lit "email_id") arguments = None
        \/ assoc (lit "email_id") arguments = Some [] ->
        handle_call_tool tenv name (Some arguments) ts
        = (ts, Failed (ValueError (lit "Missing email ID parameter"))))
  /\ (name = lit "send-email" ->
      forall arguments recipient,
        assoc (lit "recipient_id") arguments = Some recipient ->
        recipient <> [] ->
        assoc (lit "subject") arguments = None
        \/ assoc (lit "subject") arguments = Some [] ->
        handle_call_tool tenv name (Some arguments) ts
        = (ts, Failed (ValueError (lit "Missing subject parameter"))))
  /\ (name ∈ [lit "label-email"; lit "send-email"; lit "read-email";
              lit "open-email"; lit "trash-email"; lit "mark-email-as-read"]
      ->
      handle_call_tool tenv name None ts
      = (ts, Failed (ServiceError AttributeError))).
Proof.
  split; [|split; [|split]].
  - intros Hout arguments. unfold handle_call_tool.
    repeat (rewrite bool_decide_eq_false_2;
            [|intros ->; apply Hout;
              repeat (first [apply list_elem_of_here
                            |apply list_elem_of_further])]).
    reflexivity.
  - intros Hin arguments Hmissing.
    repeat (apply elem_of_cons in Hin as [->|Hin]);
      [| | | |now apply not_elem_of_nil in Hin];
      unfold handle_call_tool;
      repeat (rewrite bool_decide_eq_false_2 by decided);
      rewrite bool_decide_eq_true_2 by reflexivity;
      unfold tbind at 1; now rewrite required_missing.
  - intros -> arguments recipient Hrecipient Hne Hmissing.
    unfold handle_call_tool.
    rewrite bool_decide_eq_false_2 by decided.
    rewrite bool_decide_eq_true_2 by reflexivity.
    unfold tbind at 1.
    rewrite (required_present _ _ _ _ recipient) by assumption.
    unfold tbind at 1. now rewrite required_missing.
  - intros Hin.
    repeat (apply elem_of_cons in Hin as [->|Hin]);
      [| | | | | |now apply not_elem_of_nil in Hin];
      vm_compute; reflexivity.
Qed.

Lemma refused_calls_do_nothing_witness :
  let tenv := ToolScenario.tenv_of (Ok (lit "sent-1")) in
  handle_call_tool tenv (lit "trash-email")
    (Some [(lit "email_id", [])]) ToolScenario.tstate
  = (ToolScenario.tstate,
     Failed (ValueError (lit "Missing email ID parameter"))).
Proof.
  intros tenv.
  refine (proj1 (proj2 (refused_calls_do_nothing tenv (lit "trash-email")
                          ToolScenario.tstate)) _ _ _).
  - decided.
  - right. reflexivity.
Defined.

Lemma call_run {A} (m : M A) ts :
  call m ts
  = ({| service := fst (m (service ts)); events := events ts |},
     match snd (m (service ts)) with
     | Ok a => Done a
     | Raise e => Failed (ServiceError e)
     end).
Proof. unfold call. now destruct (m (service ts)) as [st' [a|e]]. Qed.

Lemma label_tool_start tenv arguments ts label email_id :
  assoc (lit "label") arguments = Some label -> label <> [] ->
  assoc (lit "email_id") arguments = Some email_id -> email_id <> [] ->
  handle_call_tool tenv (lit "label-email") (Some arguments) ts
  = (send_response <--
       call (label_email (base tenv) email_id (JStr label)) ;;
     json_data <-- result_of_option (json_loads tenv send_response)
                     JSONDecodeError ;;
     id <-- of_result (py_get json_data (lit "id") JNull) ;;
     if negb (truthy id) then
       match json_data with
       | JObj fields =>
           message <-- result_of_option (assoc (lit "message") fields)
                         (KeyError (lit "message")) ;;
           fail (ValueError (format_label (base tenv) message))
       | _ => fail (ServiceError AttributeError)
       end
     else done (plain (lit "Email successfully classified " ++ email_id)))
      ts.
Proof.
  intros Hlabel Hl Hid Hi. unfold handle_call_tool.
  rewrite bool_decide_eq_true_2 by reflexivity.
  unfold tbind at 1. rewrite (required_present _ _ _ _ label) by assumption.
  unfold tbind at 1. now rewrite (required_present _ _ _ _ email_id).
Qed.

(** X15.  The label-email tool on a name no label has.  [label_email] asks
    for the labels and changes nothing; once its answer is read back
    from JSON, the tool raises [ValueError] with the message that the
    label was not found. *)
Theorem label_tool_unknown_label tenv arguments ts label email_id labels :
  assoc (lit "label") arguments = Some label -> label <> [] ->
  assoc (lit "email_id") arguments = Some email_id -> email_id <> [] ->
  api_fault (base tenv) (trace (service ts)) ReqLabels = None ->
  api_labels (base tenv) (trace (service ts)) = Some labels ->
  find_label_id labels (JStr label) = None ->
  json_loads tenv (label_not_found (base tenv) (JStr label))
  = Some (JObj [(lit "error", JStr (lit "true"));
                (lit "message",
                 JStr (lit "Label '" ++ label ++ lit "' not found."))]) ->
  handle_call_tool tenv (lit "label-email") (Some arguments) ts
  = ({| service := record_request ReqLabels (service ts);
        events := events ts |},
     Failed (ValueError (lit "Label '" ++ label ++ lit "' not found."))).
Proof.
  intros Hlabel Hl Hid Hi Hfault Hlabels Hfind Hloads.
  rewrite (label_tool_start tenv arguments ts label email_id) by assumption.
  unfold tbind at 1. rewrite call_run, label_email_run. cbv zeta.
  rewrite Hfault, Hlabels, Hfind. cbn [fst snd].
  unfold tbind at 1. rewrite Hloads. reflexivity.
Qed.

Lemma label_tool_unknown_label_witness :
  let tenv := ToolScenario.tenv_of (Ok (lit "sent-1")) in
  handle_call_tool tenv (lit "label-email")
    (Some [(lit "email_id", lit "A"); (lit "label", lit "Urgent")])
    ToolScenario.tstate
  = ({| service := record_request ReqLabels (service ToolScenario.tstate);
        events := [] |},
     Failed (ValueError (lit "Label 'Urgent' not found."))).
Proof.
  intros tenv.
  apply (label_tool_unknown_label tenv _ ToolScenario.tstate
           (lit "Urgent") (lit "A") Scenario.labels);
    try (vm_compute; reflexivity); discriminate.
Defined.

Lemma message_resource_id id m :
  py_get (message_resource id m) (lit "id") JNull = Ok (JStr id).
Proof. vm_compute. reflexivity. Qed.

(** X16.  The label-email tool on a label that resolves.  When the labels
    request and the modify are answered, the message exists, and the
    message dumped by [label_email] reads back from JSON, the tool
    returns its confirmation with the id, and the message has gained
    the label. *)
Theorem label_tool_applies tenv arguments ts label email_id labels labelID m :
  assoc (lit "label") arguments = Some label -> label <> [] ->
  assoc (lit "email_id") arguments = Some email_id -> email_id <> [] ->
  api_fault (base tenv) (trace (service ts)) ReqLabels = None ->
  api_labels (base tenv) (trace (service ts)) = Some labels ->
  find_label_id labels (JStr label) = Some labelID -> labelID <> [] ->
  api_fault (base tenv) (trace (service ts) ++ [ReqLabels])
    (ReqModify email_id [labelID] []) = None ->
  mailbox (service ts) !! email_id = Some m ->
  let m' :=
    relabelled m (modified_labels (msg_labelIds m) [labelID] []) in
  json_loads tenv (json_dumps (base tenv) (message_resource email_id m'))
  = Some (message_resource email_id m') ->
  let result :=
    handle_call_tool tenv (lit "label-email") (Some arguments) ts in
  snd result
  = Done (plain (lit "Email successfully classified " ++ email_id))
  /\ mailbox (service (fst result)) = <[email_id := m']> (mailbox (service ts))
  /\ events (fst result) = events ts.
Proof.
  intros Hlabel Hl Hid Hi Hfault Hlabels Hfind Hlid Hfault2 Hm m' Hloads
    result.
  assert (Hrun :
    result
    = ({| service :=
            {| mailbox := <[email_id := m']> (mailbox (service ts));
               trace := trace (service ts)
                        ++ [ReqLabels; ReqModify email_id [labelID] []] |};
          events := events ts |},
       Done (plain (lit "Email successfully classified " ++ email_id)))).
  { subst result.
    rewrite (label_tool_start tenv arguments ts label email_id)
      by assumption.
    unfold tbind at 1. rewrite call_run, label_email_run. cbv zeta.
    rewrite Hfault, Hlabels, Hfind.
    destruct labelID as [|c labelID]; [congruence|]. cbn [str_truthy].
    rewrite messages_modify_run. cbv zeta.
    cbn [record_request trace mailbox]. rewrite Hfault2, Hm. cbn [fst snd].
    fold m'. unfold tbind at 1. rewrite Hloads.
    unfold result_of_option, done. unfold tbind at 1.
    rewrite message_resource_id. unfold of_result, done.
    destruct email_id as [|d email_id]; [congruence|].
    cbn [truthy str_truthy negb]. now rewrite <- app_assoc. }
  rewrite Hrun. cbn [fst snd service events mailbox]. auto.
Qed.

Lemma label_tool_applies_witness :
  let tenv := ToolScenario.tenv_of (Ok (lit "sent-1")) in
  let result :=
    handle_call_tool tenv (lit "label-email")
      (Some [(lit "email_id", lit "A"); (lit "label", lit "Ads")])
      ToolScenario.tstate in
  snd result = Done (plain (lit "Email successfully classified A"))
  /\ msg_labelIds <$> mailbox (service (fst result)) !! lit "A"
     = Some [lit "INBOX"; lit "UNREAD"; lit "Label_2"].
Proof.
  intros tenv result.
  assert (Hl : lit "Ads" <> []) by discriminate.
  assert (Hi : lit "A" <> []) by discriminate.
  assert (Hlid : lit "Label_2" <> []) by discriminate.
  pose proof (label_tool_applies tenv
                [(lit "email_id", lit "A"); (lit "label", lit "Ads")]
                ToolScenario.tstate (lit "Ads") (lit "A") Scenario.labels
                (lit "Label_2") (Scenario.unread_message Scenario.raw_hello)
                eq_refl Hl eq_refl Hi eq_refl eq_refl eq_refl Hlid eq_refl
                eq_refl) as H.
  cbv zeta in H. destruct H as (Hdone & Hmailbox & _);
    [vm_compute; reflexivity|].
  split; [exact Hdone|].
  subst result. rewrite Hmailbox, lookup_insert_eq. reflexivity.
Defined.

(** X17.  The send-email tool.  With its three arguments present and a
    message that encodes, the tool makes one send request, for the
    message from the account's address with the subject and the content
    that [subject_and_content] gives; it returns the id of the message
    sent, or, when the client raises an [HttpError], the text of the
    failure instead of raising. *)
Theorem send_tool_reports tenv arguments ts recipient subject message
    sent_subject sent_content raw :
  assoc (lit "recipient_id") arguments = Some recipient -> recipient <> [] ->
  assoc (lit "subject") arguments = Some subject -> subject <> [] ->
  assoc (lit "message") arguments = Some message -> message <> [] ->
  subject_and_content subject message = Some (sent_subject, sent_content) ->
  encode_email tenv recipient (user_email tenv) sent_subject sent_content
  = Ok raw ->
  handle_call_tool tenv (lit "send-email") (Some arguments) ts
  = ({| service := service ts; events := events ts ++ [SendRequest raw] |},
     match send_answer tenv (events ts) raw with
     | Ok id =>
         Done (plain (lit "Email sent successfully. Message ID: " ++ id))
     | Raise (HttpError error) =>
         Done (plain (lit "Failed to send email: " ++ error))
     | Raise e => Failed (ServiceError e)
     end).
Proof.
  intros Hr Hrne Hs Hsne Hm Hmne Hparsed Hencode.
  unfold handle_call_tool.
  rewrite bool_decide_eq_false_2 by decided.
  rewrite bool_decide_eq_true_2 by reflexivity.
  unfold tbind at 1. rewrite (required_present _ _ _ _ recipient) by assumption.
  unfold tbind at 1. rewrite (required_present _ _ _ _ subject) by assumption.
  unfold tbind at 1. rewrite (required_present _ _ _ _ message) by assumption.
  unfold tbind at 1. rewrite Hparsed. cbn [result_of_option done fst snd].
  unfold tbind, send_email. rewrite Hencode.
  destruct (send_answer tenv (events ts) raw) as [id|e]; [reflexivity|].
  now destruct e.
Qed.

Lemma send_tool_reports_witness :
  let tenv := ToolScenario.tenv_of (Raise (HttpError (lit "quota"))) in
  handle_call_tool tenv (lit "send-email")
    (Some [(lit "recipient_id", lit "a@example.com");
           (lit "subject", lit "ignored");
           (lit "message",
            lit "Subject: Lunch " ++ 10%N :: 10%N :: lit "At noon?"
            ++ [10%N])])
    ToolScenario.tstate
  = ({| service := service ToolScenario.tstate;
        events := [SendRequest ToolScenario.raw_lunch] |},
     Done (plain (lit "Failed to send email: quota"))).
Proof.
  intros tenv.
  assert (Hr : lit "a@example.com" <> []) by discriminate.
  assert (Hs : lit "ignored" <> []) by discriminate.
  assert (Hm : lit "Subject: Lunch " ++ 10%N :: 10%N :: lit "At noon?"
               ++ [10%N] <> []) by discriminate.
  exact (send_tool_reports tenv
           [(lit "recipient_id", lit "a@example.com");
            (lit "subject", lit "ignored");
            (lit "message",
             lit "Subject: Lunch " ++ 10%N :: 10%N :: lit "At noon?"
             ++ [10%N])]
           ToolScenario.tstate
           (lit "a@example.com") (lit "ignored")
           (lit "Subject: Lunch " ++ 10%N :: 10%N :: lit "At noon?"
            ++ [10%N])
           (lit "Lunch") (lit "At noon?") ToolScenario.raw_lunch
           eq_refl Hr eq_refl Hs eq_refl Hm eq_refl eq_refl).
Defined.

(** ** The training script *)

Lemma post_to_url_dict env entry st :
  Train.is_dict entry = true ->
  (forall earlier u content e, Train.post env earlier u content
                                <> Train.PostRaises e) ->
  exists st' response,
    Train.post_to_url env Train.url entry st = (st', Ok response)
    /\ Train.posted st' = Train.posted st ++ [Train.request_of env entry].
Proof.
  intros Hdict Hpost. destruct entry as [| | | | |fields]; try discriminate.
  unfold Train.post_to_url, Train.request_of. cbn [py_get].
  destruct (Train.post env (Train.posted st) Train.url _) as [body|text|e] eqn:E.
  - now eexists _, _.
  - now eexists _, _.
  - now destruct (Hpost _ _ _ _ E).
Qed.

Lemma post_to_url_not_dict env entry st :
  Train.is_dict entry = false ->
  Train.post_to_url env Train.url entry st = (st, Raise AttributeError).
Proof. now destruct entry. Qed.

Lemma train_loop_dicts env entries : forall st,
  Forall (fun entry => Train.is_dict entry = true) entries ->
  (forall earlier u content e, Train.post env earlier u content
                                <> Train.PostRaises e) ->
  forall rest,
    exists st1,
      Train.posted st1
      = Train.posted st ++ (Train.request_of env <$> entries)
      /\ Train.train_loop env (entries ++ rest) st
         = Train.train_loop env rest st1.
Proof.
  induction entries as [|entry entries IH]; intros st Hdicts Hpost rest.
  - exists st. split; [now rewrite app_nil_r|reflexivity].
  - inversion Hdicts as [|? ? Hdict Hrest]; subst.
    destruct (post_to_url_dict env entry st Hdict Hpost)
      as (st' & response & Hrun & Hposted).
    destruct (IH (Train.print (Train.ResponseLine response) st') Hrest Hpost
                rest) as (st1 & Hposted1 & Hloop).
    exists st1. split.
    + rewrite Hposted1. cbn [Train.print Train.posted]. rewrite Hposted.
      now rewrite <- app_assoc.
    + cbn [app Train.train_loop]. now rewrite Hrun.
Qed.

(** X18.  One POST per entry.  When the training data is a list of dicts and
    no POST raises anything but a [RequestException], [main] posts each
    entry once, in the order of the list, to the one URL, and ends
    normally: a POST that fails does not keep the later entries from
    being posted. *)
Theorem one_post_per_entry env training_file st data entries :
  Train.read_file env training_file = Train.Parsed data ->
  py_get data (lit "training_data") (JArr []) = Ok (JArr entries) ->
  Forall (fun entry => Train.is_dict entry = true) entries ->
  (forall earlier u content e, Train.post env earlier u content
                                <> Train.PostRaises e) ->
  exists st',
    Train.main env training_file st = (st', Ok tt)
    /\ Train.posted st'
       = Train.posted st ++ (Train.request_of env <$> entries).
Proof.
  intros Hfile Hdata Hdicts Hpost.
  unfold Train.main, Train.read_training_data. rewrite Hfile, Hdata.
  cbn [Train.iterate].
  destruct (train_loop_dicts env entries st Hdicts Hpost [])
    as (st1 & Hposted & Hloop).
  rewrite app_nil_r in Hloop. exists st1. now rewrite Hloop.
Qed.

Lemma one_post_per_entry_witness :
  exists st',
    Train.main TrainScenario.env (lit "data.json") TrainScenario.start
    = (st', Ok tt)
    /\ Train.posted st'
       = Train.request_of TrainScenario.env <$> TrainScenario.entries.
Proof.
  apply (one_post_per_entry TrainScenario.env (lit "data.json")
           TrainScenario.start
           (JObj [(lit "training_data", JArr TrainScenario.entries)])
           TrainScenario.entries).
  - reflexivity.
  - reflexivity.
  - repeat constructor.
  - intros earlier u content e. cbn. now destruct earlier.
Defined.

(** X19.  An entry that is not a dict ends the training.  The entries before
    it have been posted, one POST each; at the entry itself [main]
    raises [AttributeError], and nothing after it is posted. *)
Theorem bad_entry_stops_training env training_file st data good bad rest :
  Train.read_file env training_file = Train.Parsed data ->
  py_get data (lit "training_data") (JArr [])
  = Ok (JArr (good ++ bad :: rest)) ->
  Forall (fun entry => Train.is_dict entry = true) good ->
  Train.is_dict bad = false ->
  (forall earlier u content e, Train.post env earlier u content
                                <> Train.PostRaises e) ->
  exists st',
    Train.main env training_file st = (st', Raise AttributeError)
    /\ Train.posted st'
       = Train.posted st ++ (Train.request_of env <$> good).
Proof.
  intros Hfile Hdata Hdicts Hbad Hpost.
  unfold Train.main, Train.read_training_data. rewrite Hfile, Hdata.
  cbn [Train.iterate].
  destruct (train_loop_dicts env good st Hdicts Hpost (bad :: rest))
    as (st1 & Hposted & Hloop).
  exists st1. rewrite Hloop. cbn [Train.train_loop].
  now rewrite post_to_url_not_dict.
Qed.

Lemma bad_entry_stops_training_witness :
  let env :=
    {| Train.read_file :=
         fun _ =>
           Train.Parsed
             (JObj [(lit "training_data",
                     JArr [TrainScenario.entry "Your invoice" "Review";
                           JStr (lit "50% off");
                           TrainScenario.entry "Hello" "Review"])]);
       Train.post := Train.post TrainScenario.env;
       Train.str_of := Train.str_of TrainScenario.env |} in
  exists st',
    Train.main env (lit "data.json") TrainScenario.start
    = (st', Raise AttributeError)
    /\ Train.posted st'
       = [Train.request_of env (TrainScenario.entry "Your invoice" "Review")].
Proof.
  intros env.
  apply (bad_entry_stops_training env (lit "data.json") TrainScenario.start
           (JObj [(lit "training_data",
                   JArr [TrainScenario.entry "Your invoice" "Review";
                         JStr (lit "50% off");
                         TrainScenario.entry "Hello" "Review"])])
           [TrainScenario.entry "Your invoice" "Review"]
           (JStr (lit "50% off"))
           [TrainScenario.entry "Hello" "Review"]).
  - reflexivity.
  - reflexivity.
  - repeat constructor.
  - reflexivity.
  - intros earlier u content e. cbn. now destruct earlier.
Defined.

(** X20.  No data, no POST.  When the training file is missing, is not JSON,
    or is a JSON object without the key [training_data], [main] ends
    normally without posting anything; in the first two cases it has
    printed one line about the file. *)
Theorem training_without_data env training_file st :
  Train.read_file env training_file = Train.FileNotFound
  \/ Train.read_file env training_file = Train.NotJson
  \/ (exists fields,
        Train.read_file env training_file = Train.Parsed (JObj fields)
        /\ assoc (lit "training_data") fields = None) ->
  exists st',
    Train.main env training_file st = (st', Ok tt)
    /\ Train.posted st' = Train.posted st
    /\ Train.printed st'
       = Train.printed st
         ++ match Train.read_file env training_file with
            | Train.FileNotFound => [Train.FileNotFoundLine training_file]
            | Train.NotJson => [Train.NotJsonLine training_file]
            | _ => []
            end.
Proof.
  unfold Train.main, Train.read_training_data.
  intros [Hfile|[Hfile|(fields & Hfile & Hkey)]]; rewrite Hfile.
  - eexists. split; [reflexivity|]. split; reflexivity.
  - eexists. split; [reflexivity|]. split; reflexivity.
  - cbn [py_get]. rewrite Hkey. exists st.
    split; [reflexivity|]. split; [reflexivity|now rewrite app_nil_r].
Qed.

Lemma training_without_data_witness :
  exists st',
    Train.main TrainScenario.env (lit "missing.json") TrainScenario.start
    = (st', Ok tt)
    /\ Train.posted st' = []
    /\ Train.printed st' = [Train.FileNotFoundLine (lit "missing.json")].
Proof.
  apply (training_without_data TrainScenario.env (lit "missing.json")
           TrainScenario.start).
  left. reflexivity.
Defined.

(** ** What a run and the read-email tool come to *)

(** The loop over the unread messages: the entries without an id are
    passed over, and the first entry that has one ends the loop with the
    exception of line 264. *)
Lemma process_loop_run env unread_emails : forall v st,
  process_loop env unread_emails v st
  = (st, if existsb has_id unread_emails
         then Raise AttributeError
         else Ok (results v)).
Proof.
  induction unread_emails as [|email rest IH]; intros v st; [reflexivity|].
  cbn [process_loop existsb]. unfold bind at 1.
  destruct email as [[email_id|]]; unfold has_id at 1; cbn [ref_id].
  - destruct (str_truthy email_id) eqn:Hid.
    + now rewrite process_email_raises.
    + unfold process_email. cbn [ref_id]. rewrite Hid. cbn [negb ret orb].
      apply IH.
  - cbn [process_email ref_id ret orb]. apply IH.
Qed.

(** X23.  Whatever the account holds and whatever the client and the
    endpoint answer, a run makes one request, the listing of the unread
    messages, changes no message and returns the empty list: no message
    is fetched, classified or labelled. *)
Theorem run_lists_and_returns_nothing env st :
  process_and_label_emails env st = (record_request ReqList st, Ok []).
Proof.
  unfold process_and_label_emails, try_except_Exception, ret.
  rewrite process_body_run.
  destruct (api_fault env (trace st) ReqList) as [e|];
    [now destruct e|].
  destruct (api_unread env (trace st)) as [[|email rest]|];
    try reflexivity.
  rewrite process_loop_run.
  now destruct (existsb has_id (email :: rest)).
Qed.

(** X24.  The read-email tool, called with an id, raises the
    [AttributeError] of line 264: nothing is returned to the caller, no
    request has been made and no message is marked read. *)
Theorem read_tool_raises tenv arguments ts email_id :
  assoc (lit "email_id") arguments = Some email_id ->
  email_id <> [] ->
  handle_call_tool tenv (lit "read-email") (Some arguments) ts
  = (ts, Failed (ServiceError AttributeError)).
Proof.
  intros Harg Hne. unfold handle_call_tool.
  rewrite !(bool_decide_eq_false_2 (lit "read-email" = _))
    by discriminate.
  rewrite bool_decide_eq_true_2 by reflexivity.
  unfold tbind at 1.
  rewrite (required_present _ _ _ _ email_id Harg Hne).
  unfold tbind, call. rewrite read_email_run. now destruct ts.
Qed.

Lemma read_tool_raises_witness :
  handle_call_tool (ToolScenario.tenv_of (Ok (lit "m1"))) (lit "read-email")
    (Some [(lit "email_id", lit "A")]) ToolScenario.tstate
  = (ToolScenario.tstate, Failed (ServiceError AttributeError)).
Proof.
  apply (read_tool_raises (ToolScenario.tenv_of (Ok (lit "m1")))
           [(lit "email_id", lit "A")] ToolScenario.tstate (lit "A"));
    [reflexivity|discriminate].
Defined.
